(** * Turbojet-performance: the cycle evaluator of [lib.py] over the reals

    [compute_engine_performance] is a straight-line chain of closed-form
    gas relations, evaluated once per compressor ratio of a sweep.  The
    development embeds it over the real numbers:

    - a Python [float] is an ideal real (no rounding, no overflow);
    - a Python-level division by zero raises [ZeroDivisionError];
    - a Python-level [**] with a negative base and one of the fractional
      exponents of the program leaves the reals (Python goes on with
      [complex] values); the embedding stops there with [NotReal];
    - a value that went through [np.sqrt] is a [numpy.float64]: it never
      raises, it yields a non-finite value instead ([nan] for the root of
      a negative number, [nan] or an infinity for a division by zero). *)

From Stdlib Require Import Reals Lra List.
Import ListNotations.
Open Scope R_scope.

(** ** Outcomes of Python-level evaluation *)

(** [ZeroDivisionError] is the Python exception.  [NotReal] is no
    exception: it marks the place where a power of a negative base leaves
    the real numbers and the embedding stops following the program. *)
Inductive failure : Type :=
  | ZeroDivisionError
  | NotReal.

Inductive outcome (A : Type) : Type :=
  | Ok (a : A)
  | Raise (e : failure).

Arguments Ok {A} a.
Arguments Raise {A} e.

Definition bind {A B : Type} (m : outcome A) (k : A -> outcome B) : outcome B :=
  match m with
  | Ok a => k a
  | Raise e => Raise e
  end.

Notation "x <- m ;; k" := (bind m (fun x => k))
  (at level 61, m at next level, right associativity).

(** Python [x / y] on two floats. *)
Definition py_div (x y : R) : outcome R :=
  if Req_dec_T y 0 then Raise ZeroDivisionError else Ok (x / y).

(** Python [x ** y] on two floats.  A positive base is the real power; a
    zero base gives 0 for a positive exponent, 1 for exponent 0 and raises
    for a negative one; a negative base meets only the exponents
    (gamma-1)/gamma and gamma/(gamma-1) in this program, which are not
    integers, and Python answers with a complex number. *)
Definition py_pow (x y : R) : outcome R :=
  if Rlt_dec 0 x then Ok (Rpower x y)
  else if Req_dec_T x 0 then
    if Rlt_dec 0 y then Ok 0
    else if Req_dec_T y 0 then Ok 1
    else Raise ZeroDivisionError
  else Raise NotReal.

(** ** numpy.float64 values

    [None] is a non-finite value.  Every non-finite value that feeds a
    later operation of the program is a [nan] (the infinities only arise
    in the last division of an output), and [nan] absorbs. *)

Definition npfloat : Type := option R.

Definition fin (x : R) : npfloat := Some x.

Definition np_lift2 (op : R -> R -> R) (a b : npfloat) : npfloat :=
  match a, b with
  | Some x, Some y => Some (op x y)
  | _, _ => None
  end.

Definition np_add : npfloat -> npfloat -> npfloat := np_lift2 Rplus.
Definition np_sub : npfloat -> npfloat -> npfloat := np_lift2 Rminus.
Definition np_mul : npfloat -> npfloat -> npfloat := np_lift2 Rmult.

Definition np_div (a b : npfloat) : npfloat :=
  match a, b with
  | Some x, Some y => if Req_dec_T y 0 then None else Some (x / y)
  | _, _ => None
  end.

(** [v ** 2] on a numpy value. *)
Definition np_sq (a : npfloat) : npfloat :=
  match a with
  | Some x => Some (x ^ 2)
  | None => None
  end.

(** [np.sqrt] on a Python float: [nan] below zero. *)
Definition np_sqrt (x : R) : npfloat :=
  if Rlt_dec x 0 then None else Some (sqrt x).

(** [a < y]: every comparison with [nan] is false. *)
Definition np_lt (a : npfloat) (y : R) : bool :=
  match a with
  | Some x => if Rlt_dec x y then true else false
  | None => false
  end.

Declare Scope np_scope.
Delimit Scope np_scope with np.
Infix "+!" := np_add (at level 50, left associativity) : np_scope.
Infix "-!" := np_sub (at level 50, left associativity) : np_scope.
Infix "*!" := np_mul (at level 40, left associativity) : np_scope.
Infix "/!" := np_div (at level 40, left associativity) : np_scope.

(** ** Engine constants *)

Definition gamma : R := 1.4.
(** [R] in the source; the name is taken by the type of the reals. *)
Definition R_gas : R := 287.
Definition PCI : R := 48000000.
Definition cp : R := 1004.

(** ** The local variables of one pass of the loop *)

Module Point.

Record locals : Type := mk {
  Tt2 : R; Pt2 : R;
  Pt13 : R; Tt13 : R; dm_fp : R; dm_fs : R;
  Pt3 : R; Tt3 : R;
  Pt4 : R; dm_f : R; f : R;
  Tt42 : R; tau_hpt : R; Pt42 : R;
  Tt5 : R; tau_lpt : R; Pt5 : R;
  Tt8 : R; Pt8 : R; M8_ad : npfloat; M8 : npfloat; V8 : npfloat;
  Tt18 : R; Pt18 : R; M18_ad : npfloat; M18 : npfloat; V18 : npfloat;
  V0 : npfloat; T_fp : npfloat; T_fs : npfloat; T : npfloat;
  ST : npfloat; TSFC : npfloat;
  Wprop : npfloat; Wcin : npfloat; Wth : R;
  nprop : npfloat; nth : npfloat; nglob : npfloat;
  Dr1 : npfloat; Dr2 : npfloat;
  A1 : npfloat; A2 : npfloat; A8 : npfloat; A18 : npfloat
}.

End Point.

(** The body of [for pi_hpc in pi_hpc_list], line by line. *)
Definition cycle_point (dm beta pi_fan pi_hpc Tt4 M0 Ts0 Ps0 M1 M2 : R)
  : outcome Point.locals :=
  (* Inlet conditions *)
  let Tt2 := Ts0 * (1 + (gamma - 1) / 2 * M0 ^ 2) in
  b2 <- py_pow (1 + (gamma - 1) / 2 * M0 ^ 2) (gamma / (gamma - 1)) ;;
  let Pt2 := Ps0 * b2 in
  (* Fan exit *)
  let Pt13 := Pt2 * pi_fan in
  b13 <- py_pow pi_fan ((gamma - 1) / gamma) ;;
  let Tt13 := Tt2 * b13 in
  dm_fp <- py_div dm (1 + beta) ;;
  let dm_fs := dm - dm_fp in
  (* High-pressure compressor exit *)
  let Pt3 := Pt13 * pi_hpc in
  b3 <- py_pow pi_hpc ((gamma - 1) / gamma) ;;
  let Tt3 := Tt13 * b3 in
  (* Combustor exit *)
  let Pt4 := Pt3 in
  dm_f <- py_div (dm_fp * cp * (Tt4 - Tt3)) (PCI - Tt4) ;;
  f <- py_div dm_f dm_fp ;;
  (* High-pressure turbine exit *)
  q42 <- py_div (Tt3 - Tt13) (1 + f) ;;
  let Tt42 := Tt4 - q42 in
  tau_hpt <- py_div Tt42 Tt4 ;;
  b42 <- py_pow tau_hpt (gamma / (gamma - 1)) ;;
  let Pt42 := Pt4 * b42 in
  (* Low-pressure turbine exit *)
  q5 <- py_div ((1 + beta) * (Tt13 - Tt2)) (1 + f) ;;
  let Tt5 := Tt42 - q5 in
  tau_lpt <- py_div Tt5 Tt42 ;;
  b5 <- py_pow tau_lpt (gamma / (gamma - 1)) ;;
  let Pt5 := Pt42 * b5 in
  (* Nozzle primary flow *)
  let Tt8 := Tt5 in
  let Pt8 := Pt5 in
  r8 <- py_div Pt8 Ps0 ;;
  b8 <- py_pow r8 ((gamma - 1) / gamma) ;;
  let M8_ad := np_sqrt ((2 / (gamma - 1)) * b8 - 1) in
  let M8 := if np_lt M8_ad 1 then M8_ad else fin 1 in
  let V8 := (M8 *! np_sqrt (gamma * R_gas * Tt8))%np in
  (* Nozzle secondary flow *)
  let Tt18 := Tt13 in
  let Pt18 := Pt13 in
  r18 <- py_div Pt18 Ps0 ;;
  b18 <- py_pow r18 ((gamma - 1) / gamma) ;;
  let M18_ad := np_sqrt ((2 / (gamma - 1)) * b18 - 1) in
  let M18 := if np_lt M18_ad 1 then M18_ad else fin 1 in
  let V18 := (M18 *! np_sqrt (gamma * R_gas * Tt18))%np in
  (* Thrust calculations *)
  let V0 := (fin M0 *! np_sqrt (gamma * R_gas * Ts0))%np in
  let T_fp := (fin ((1 + f) * dm_fp) *! V8)%np in
  let T_fs := (fin dm_fs *! V18)%np in
  let T := (T_fp +! T_fs -! fin dm *! V0)%np in
  let ST := (T /! fin dm)%np in
  let TSFC := (fin dm_f /! ST)%np in
  (* Power and efficiency *)
  let Wprop := (T *! V0)%np in
  let Wcin := ((fin ((1 + f) * dm_fp) *! np_sq V8) /! fin 2
               +! (fin dm_fs *! np_sq V18) /! fin 2
               -! (fin dm *! np_sq V0) /! fin 2)%np in
  let Wth := dm_f * PCI in
  let nprop := (Wprop /! Wcin)%np in
  let nth := (Wcin /! fin Wth)%np in
  let nglob := (Wprop /! fin Wth)%np in
  (* Section areas *)
  c1 <- py_pow (1 + ((gamma - 1) / 2) * M1 ^ 2) (- (gamma + 1) / (2 * (gamma - 1))) ;;
  let Dr1 := (np_sqrt (gamma / R_gas) *! fin M1 *! fin c1)%np in
  c2 <- py_pow (1 + ((gamma - 1) / 2) * M2 ^ 2) (- (gamma + 1) / (2 * (gamma - 1))) ;;
  let Dr2 := (np_sqrt (gamma / R_gas) *! fin M2 *! fin c2)%np in
  let A1 := ((fin dm *! np_sqrt Tt2) /! (fin Pt2 *! Dr1))%np in
  let A2 := ((fin dm *! np_sqrt Tt2) /! (fin Pt2 *! Dr2))%np in
  let A8 := ((fin ((1 + f) * dm_fp) *! np_sqrt Tt8) /! fin Pt8)%np in
  let A18 := ((fin dm_fs *! np_sqrt Tt18) /! fin Pt18)%np in
  Ok (Point.mk Tt2 Pt2 Pt13 Tt13 dm_fp dm_fs Pt3 Tt3 Pt4 dm_f f
        Tt42 tau_hpt Pt42 Tt5 tau_lpt Pt5
        Tt8 Pt8 M8_ad M8 V8 Tt18 Pt18 M18_ad M18 V18
        V0 T_fp T_fs T ST TSFC Wprop Wcin Wth nprop nth nglob
        Dr1 Dr2 A1 A2 A8 A18).

(** ** The result dictionary: one list per key *)

Record results : Type := mk_results {
  T_list : list npfloat;
  T_fp_list : list npfloat;
  T_fs_list : list npfloat;
  ST_list : list npfloat;
  TSFC_list : list npfloat;
  Wprop_list : list npfloat;
  Wcin_list : list npfloat;
  Wth_list : list R;
  nprop_list : list npfloat;
  nth_list : list npfloat;
  nglob_list : list npfloat;
  A1_list : list npfloat;
  A2_list : list npfloat;
  A8_list : list npfloat;
  A18_list : list npfloat
}.

Definition empty_results : results :=
  mk_results [] [] [] [] [] [] [] [] [] [] [] [] [] [] [].

(** The fifteen [append] calls that end a pass of the loop. *)
Definition save_results (res : results) (p : Point.locals) : results :=
  mk_results
    (T_list res ++ [Point.T p])
    (T_fp_list res ++ [Point.T_fp p])
    (T_fs_list res ++ [Point.T_fs p])
    (ST_list res ++ [Point.ST p])
    (TSFC_list res ++ [Point.TSFC p])
    (Wprop_list res ++ [Point.Wprop p])
    (Wcin_list res ++ [Point.Wcin p])
    (Wth_list res ++ [Point.Wth p])
    (nprop_list res ++ [Point.nprop p])
    (nth_list res ++ [Point.nth p])
    (nglob_list res ++ [Point.nglob p])
    (A1_list res ++ [Point.A1 p])
    (A2_list res ++ [Point.A2 p])
    (A8_list res ++ [Point.A8 p])
    (A18_list res ++ [Point.A18 p]).

(** The loop over [pi_hpc_list], threading the dictionary; an exception in
    one pass leaves the function without a result. *)
Fixpoint sweep (dm beta pi_fan Tt4 M0 Ts0 Ps0 M1 M2 : R)
  (pi_hpc_list : list R) (res : results) : outcome results :=
  match pi_hpc_list with
  | [] => Ok res
  | pi_hpc :: rest =>
      p <- cycle_point dm beta pi_fan pi_hpc Tt4 M0 Ts0 Ps0 M1 M2 ;;
      sweep dm beta pi_fan Tt4 M0 Ts0 Ps0 M1 M2 rest (save_results res p)
  end.

Definition compute_engine_performance (dm beta pi_fan : R)
  (pi_hpc_list : list R) (Tt4 M0 Ts0 Ps0 M1 M2 : R) : outcome results :=
  sweep dm beta pi_fan Tt4 M0 Ts0 Ps0 M1 M2 pi_hpc_list empty_results.

(** ** Closed forms of the stations that decide whether a pass raises

    The temperatures up to the low-pressure turbine and the fuel-air
    ratio, read off the assignments of the loop body; the preconditions of
    the evaluator are stated with them. *)

Definition Tt2_of (M0 Ts0 : R) : R :=
  Ts0 * (1 + (gamma - 1) / 2 * M0 ^ 2).

Definition Tt13_of (pi_fan M0 Ts0 : R) : R :=
  Tt2_of M0 Ts0 * Rpower pi_fan ((gamma - 1) / gamma).

Definition Tt3_of (pi_fan pi_hpc M0 Ts0 : R) : R :=
  Tt13_of pi_fan M0 Ts0 * Rpower pi_hpc ((gamma - 1) / gamma).

Definition f_of (pi_fan pi_hpc Tt4 M0 Ts0 : R) : R :=
  cp * (Tt4 - Tt3_of pi_fan pi_hpc M0 Ts0) / (PCI - Tt4).

Definition Tt42_of (pi_fan pi_hpc Tt4 M0 Ts0 : R) : R :=
  Tt4 - (Tt3_of pi_fan pi_hpc M0 Ts0 - Tt13_of pi_fan M0 Ts0)
        / (1 + f_of pi_fan pi_hpc Tt4 M0 Ts0).

Definition Tt5_of (beta pi_fan pi_hpc Tt4 M0 Ts0 : R) : R :=
  Tt42_of pi_fan pi_hpc Tt4 M0 Ts0
  - (1 + beta) * (Tt13_of pi_fan M0 Ts0 - Tt2_of M0 Ts0)
    / (1 + f_of pi_fan pi_hpc Tt4 M0 Ts0).

(** ** The adiabatic exit Mach number as the specification words it

    The subtraction of 1 applies to the pressure-ratio term, inside the
    factor multiplied by [2/(gamma-1)]: the isentropic expansion from the
    reservoir pressure [Pt] to the ambient pressure [Ps0]. *)

Definition M_ad_claimed (Pt Ps0 : R) : R :=
  sqrt ((2 / (gamma - 1)) * (Rpower (Pt / Ps0) ((gamma - 1) / gamma) - 1)).

(** ** Choked flow, as the specification words it

    The exit Mach number of a nozzle with reservoir pressure [Pt > 0]: 1
    where the unchoked adiabatic solution is not a real number (negative
    radicand) or is at least 1, and the adiabatic solution otherwise. *)

Definition M_exit_claimed (Pt Ps0 : R) : R :=
  let x := (2 / (gamma - 1)) * (Rpower (Pt / Ps0) ((gamma - 1) / gamma) - 1) in
  if Rlt_dec x 0 then 1
  else if Rlt_dec (M_ad_claimed Pt Ps0) 1 then M_ad_claimed Pt Ps0
  else 1.

(** ** The efficiency lines in binary64

    [nprop = Wprop / Wcin], [nth = Wcin / Wth] and [nglob = Wprop / Wth]
    on floats: when a quotient neither overflows nor underflows, the
    result is the real quotient rounded to nearest, within a relative
    error of 2^-53. *)

Definition unit_roundoff : R := / 2 ^ 53.

Definition rounds_to (x y : R) : Prop :=
  Rabs (y - x) <= unit_roundoff * Rabs x.

Definition binary64_efficiencies (Wprop Wcin Wth nprop nth nglob : R) : Prop :=
  rounds_to (Wprop / Wcin) nprop /\
  rounds_to (Wcin / Wth) nth /\
  rounds_to (Wprop / Wth) nglob.

(** The dictionary whose lists hold the saved values of the passes [ps],
    in order. *)
Definition results_of (ps : list Point.locals) : results :=
  mk_results
    (map Point.T ps) (map Point.T_fp ps) (map Point.T_fs ps)
    (map Point.ST ps) (map Point.TSFC ps)
    (map Point.Wprop ps) (map Point.Wcin ps) (map Point.Wth ps)
    (map Point.nprop ps) (map Point.nth ps) (map Point.nglob ps)
    (map Point.A1 ps) (map Point.A2 ps) (map Point.A8 ps) (map Point.A18 ps).

(** [passes ... ratios ps]: the passes of the loop over [ratios] all
    return, with locals [ps], in order. *)
Definition passes (dm beta pi_fan Tt4 M0 Ts0 Ps0 M1 M2 : R)
  (ratios : list R) (ps : list Point.locals) : Prop :=
  Forall2 (fun pi_hpc p =>
             cycle_point dm beta pi_fan pi_hpc Tt4 M0 Ts0 Ps0 M1 M2 = Ok p)
          ratios ps.

(** ** The example of [main.py] *)

Module Main.

Definition dm : R := 210.
Definition beta : R := 5.
Definition pi_fan : R := 1.5.
Definition pi_hpc_list : list R :=
  map (fun n => IZR n / 10) [10; 20; 30; 40; 50; 60; 70; 80; 90; 100; 110; 120; 130; 140]%Z.
Definition Tt4 : R := 1300.
Definition M0 : R := 0.85.
Definition Ts0 : R := 280.65.
Definition Ps0 : R := 89876.
Definition M1 : R := 0.8.
Definition M2 : R := 0.5.

Definition results : outcome results :=
  compute_engine_performance dm beta pi_fan pi_hpc_list Tt4 M0 Ts0 Ps0 M1 M2.

End Main.

(** The dictionary of two sweeps run one after the other: list by list,
    the entries of the first followed by the entries of the second. *)
Definition results_app (r1 r2 : results) : results :=
  mk_results
    (T_list r1 ++ T_list r2) (T_fp_list r1 ++ T_fp_list r2)
    (T_fs_list r1 ++ T_fs_list r2) (ST_list r1 ++ ST_list r2)
    (TSFC_list r1 ++ TSFC_list r2) (Wprop_list r1 ++ Wprop_list r2)
    (Wcin_list r1 ++ Wcin_list r2) (Wth_list r1 ++ Wth_list r2)
    (nprop_list r1 ++ nprop_list r2) (nth_list r1 ++ nth_list r2)
    (nglob_list r1 ++ nglob_list r2) (A1_list r1 ++ A1_list r2)
    (A2_list r1 ++ A2_list r2) (A8_list r1 ++ A8_list r2)
    (A18_list r1 ++ A18_list r2).

(** The entries of index [i] of the fifteen lists are the values that the
    pass with locals [p] appended. *)
Definition entries_at (res : results) (i : nat) (p : Point.locals) : Prop :=
  nth_error (T_list res) i = Some (Point.T p) /\
  nth_error (T_fp_list res) i = Some (Point.T_fp p) /\
  nth_error (T_fs_list res) i = Some (Point.T_fs p) /\
  nth_error (ST_list res) i = Some (Point.ST p) /\
  nth_error (TSFC_list res) i = Some (Point.TSFC p) /\
  nth_error (Wprop_list res) i = Some (Point.Wprop p) /\
  nth_error (Wcin_list res) i = Some (Point.Wcin p) /\
  nth_error (Wth_list res) i = Some (Point.Wth p) /\
  nth_error (nprop_list res) i = Some (Point.nprop p) /\
  nth_error (nth_list res) i = Some (Point.nth p) /\
  nth_error (nglob_list res) i = Some (Point.nglob p) /\
  nth_error (A1_list res) i = Some (Point.A1 p) /\
  nth_error (A2_list res) i = Some (Point.A2 p) /\
  nth_error (A8_list res) i = Some (Point.A8 p) /\
  nth_error (A18_list res) i = Some (Point.A18 p).

(** ** The inputs on which a pass evaluates

    Read off the divisions and powers of the loop body, in order: both
    pressure ratios have a power, no divisor is zero, and both turbine
    temperature ratios are non-negative. *)

Definition pass_domain (dm beta pi_fan pi_hpc Tt4 M0 Ts0 Ps0 : R) : Prop :=
  exists b13 b3,
    py_pow pi_fan ((gamma - 1) / gamma) = Ok b13 /\
    py_pow pi_hpc ((gamma - 1) / gamma) = Ok b3 /\
    1 + beta <> 0 /\ PCI - Tt4 <> 0 /\ dm <> 0 /\ Tt4 <> 0 /\ Ps0 <> 0 /\
    let Tt13 := Tt2_of M0 Ts0 * b13 in
    let Tt3 := Tt13 * b3 in
    let f := cp * (Tt4 - Tt3) / (PCI - Tt4) in
    let Tt42 := Tt4 - (Tt3 - Tt13) / (1 + f) in
    let Tt5 := Tt42 - (1 + beta) * (Tt13 - Tt2_of M0 Ts0) / (1 + f) in
    1 + f <> 0 /\ Tt42 <> 0 /\ 0 <= Tt42 / Tt4 /\ 0 <= Tt5 / Tt42.

(** * Properties *)

(** ** The primitive operations *)

Lemma bind_Ok {A B : Type} (m : outcome A) (k : A -> outcome B) (b : B) :
  bind m k = Ok b -> exists a, m = Ok a /\ k a = Ok b.
Proof.
  destruct m as [a|e]; simpl; intros H; [exists a; auto | discriminate].
Qed.

Lemma Ok_inj {A : Type} (a b : A) : Ok a = Ok b -> a = b.
Proof. intros H. injection H as ->. reflexivity. Qed.

Lemma py_div_ok (x y : R) : y <> 0 -> py_div x y = Ok (x / y).
Proof.
  intros Hy. unfold py_div. destruct (Req_dec_T y 0); [contradiction | reflexivity].
Qed.

Lemma py_div_zero (x : R) : py_div x 0 = Raise ZeroDivisionError.
Proof.
  unfold py_div. destruct (Req_dec_T 0 0) as [_|N]; [reflexivity | now elim N].
Qed.

Lemma py_div_inv (x y q : R) : py_div x y = Ok q -> y <> 0 /\ q = x / y.
Proof.
  unfold py_div. destruct (Req_dec_T y 0); [discriminate|].
  intros H; injection H as <-. auto.
Qed.

Lemma py_pow_pos (x y : R) : 0 < x -> py_pow x y = Ok (Rpower x y).
Proof.
  intros Hx. unfold py_pow. destruct (Rlt_dec 0 x); [reflexivity | contradiction].
Qed.

Lemma py_pow_zero (y : R) : 0 < y -> py_pow 0 y = Ok 0.
Proof.
  intros Hy. unfold py_pow.
  destruct (Rlt_dec 0 0) as [L|_]; [lra|].
  destruct (Req_dec_T 0 0) as [_|N]; [|now elim N].
  destruct (Rlt_dec 0 y); [reflexivity | contradiction].
Qed.

Lemma py_pow_neg (x y : R) : x < 0 -> py_pow x y = Raise NotReal.
Proof.
  intros Hx. unfold py_pow.
  destruct (Rlt_dec 0 x); [lra|].
  destruct (Req_dec_T x 0); [lra | reflexivity].
Qed.

(** A successful power with a positive exponent is never negative. *)
Lemma py_pow_inv (x y b : R) :
  0 < y -> py_pow x y = Ok b ->
  (0 < x /\ b = Rpower x y /\ 0 < b) \/ (x = 0 /\ b = 0).
Proof.
  intros Hy. unfold py_pow.
  destruct (Rlt_dec 0 x) as [Hx|Hx].
  - intros H; injection H as <-. left. repeat split; auto.
    unfold Rpower. apply exp_pos.
  - destruct (Req_dec_T x 0) as [E|E]; [|discriminate].
    destruct (Rlt_dec 0 y); [|contradiction].
    intros H; injection H as <-. right. auto.
Qed.

Lemma Rpower_one_base (y : R) : Rpower 1 y = 1.
Proof. unfold Rpower. rewrite ln_1, Rmult_0_r. apply exp_0. Qed.

Lemma Rpower_pos (x y : R) : 0 < Rpower x y.
Proof. unfold Rpower. apply exp_pos. Qed.

(** The two exponents of the program, as fractions. *)
Lemma exponent_T : (gamma - 1) / gamma = 2 / 7.
Proof. unfold gamma. lra. Qed.

Lemma exponent_P : gamma / (gamma - 1) = 7 / 2.
Proof. unfold gamma. lra. Qed.

Lemma exponent_Dr : - (gamma + 1) / (2 * (gamma - 1)) = - 3.
Proof. unfold gamma. lra. Qed.

Lemma inlet_base_pos (M : R) : 0 < 1 + (gamma - 1) / 2 * M ^ 2.
Proof.
  unfold gamma. assert (0 <= M ^ 2) by (simpl; nra). lra.
Qed.

(** ** What a successful pass has computed *)

Ltac step_bind H :=
  match type of H with
  | bind _ _ = Ok _ =>
      let v := fresh "v" in
      let Hv := fresh "Hv" in
      apply bind_Ok in H; destruct H as (v & Hv & H); cbv beta in H
  end.

Ltac invert_point H :=
  unfold cycle_point in H; cbv zeta in H;
  repeat step_bind H;
  injection H as H; subst;
  cbv beta iota delta
      [Point.Tt2 Point.Pt2 Point.Pt13 Point.Tt13 Point.dm_fp Point.dm_fs
       Point.Pt3 Point.Tt3 Point.Pt4 Point.dm_f Point.f
       Point.Tt42 Point.tau_hpt Point.Pt42 Point.Tt5 Point.tau_lpt Point.Pt5
       Point.Tt8 Point.Pt8 Point.M8_ad Point.M8 Point.V8
       Point.Tt18 Point.Pt18 Point.M18_ad Point.M18 Point.V18
       Point.V0 Point.T_fp Point.T_fs Point.T Point.ST Point.TSFC
       Point.Wprop Point.Wcin Point.Wth Point.nprop Point.nth Point.nglob
       Point.Dr1 Point.Dr2 Point.A1 Point.A2 Point.A8 Point.A18] in *.

Section Point_facts.

Variables dm beta pi_fan pi_hpc Tt4 M0 Ts0 Ps0 M1 M2 : R.
Variable p : Point.locals.
Hypothesis Hp : cycle_point dm beta pi_fan pi_hpc Tt4 M0 Ts0 Ps0 M1 M2 = Ok p.

Lemma point_inlet :
  Point.Tt2 p = Ts0 * (1 + (gamma - 1) / 2 * M0 ^ 2) /\
  Point.Pt2 p = Ps0 * Rpower (1 + (gamma - 1) / 2 * M0 ^ 2) (gamma / (gamma - 1)).
Proof.
  pose proof Hp as H. invert_point H.
  rewrite py_pow_pos in Hv by apply inlet_base_pos.
  injection Hv as <-. auto.
Qed.

Lemma point_fan :
  Point.Pt13 p = Point.Pt2 p * pi_fan /\
  Point.Pt3 p = Point.Pt13 p * pi_hpc /\
  Point.Pt4 p = Point.Pt3 p /\
  (0 < pi_fan -> Point.Tt13 p = Tt13_of pi_fan M0 Ts0) /\
  (0 < pi_fan -> 0 < pi_hpc -> Point.Tt3 p = Tt3_of pi_fan pi_hpc M0 Ts0).
Proof.
  pose proof Hp as H. invert_point H.
  repeat split; intros.
  - rewrite py_pow_pos in Hv0 by assumption. injection Hv0 as <-. reflexivity.
  - rewrite py_pow_pos in Hv0, Hv2 by assumption.
    injection Hv0 as <-. injection Hv2 as <-. reflexivity.
Qed.

Lemma point_fuel :
  1 + beta <> 0 /\
  Point.dm_fp p = dm / (1 + beta) /\
  Point.dm_fs p = dm - Point.dm_fp p /\
  PCI - Tt4 <> 0 /\
  Point.dm_f p = Point.dm_fp p * cp * (Tt4 - Point.Tt3 p) / (PCI - Tt4) /\
  Point.dm_fp p <> 0 /\
  Point.f p = Point.dm_f p / Point.dm_fp p /\
  Point.Wth p = Point.dm_f p * PCI.
Proof.
  pose proof Hp as H. invert_point H.
  apply py_div_inv in Hv1, Hv3, Hv4.
  destruct Hv1, Hv3, Hv4. repeat split; assumption || reflexivity.
Qed.

Lemma point_turbines :
  1 + Point.f p <> 0 /\
  Point.Tt42 p = Tt4 - (Point.Tt3 p - Point.Tt13 p) / (1 + Point.f p) /\
  Tt4 <> 0 /\
  Point.tau_hpt p = Point.Tt42 p / Tt4 /\
  Point.Tt5 p = Point.Tt42 p
                - (1 + beta) * (Point.Tt13 p - Point.Tt2 p) / (1 + Point.f p) /\
  Point.Tt42 p <> 0 /\
  Point.tau_lpt p = Point.Tt5 p / Point.Tt42 p /\
  (exists b42 b5,
     py_pow (Point.tau_hpt p) (gamma / (gamma - 1)) = Ok b42 /\
     py_pow (Point.tau_lpt p) (gamma / (gamma - 1)) = Ok b5 /\
     Point.Pt42 p = Point.Pt4 p * b42 /\
     Point.Pt5 p = Point.Pt42 p * b5).
Proof.
  pose proof Hp as H. invert_point H.
  apply py_div_inv in Hv5, Hv6, Hv8, Hv9.
  destruct Hv5 as [? ->], Hv6 as [? ->], Hv8 as [? ->], Hv9 as [? ->].
  repeat split; try assumption.
  do 2 eexists. repeat split; eassumption.
Qed.

Lemma point_nozzles :
  Ps0 <> 0 /\
  (Point.Tt8 p = Point.Tt5 p /\ Point.Pt8 p = Point.Pt5 p /\
   exists b8,
     py_pow (Point.Pt8 p / Ps0) ((gamma - 1) / gamma) = Ok b8 /\
     Point.M8_ad p = np_sqrt ((2 / (gamma - 1)) * b8 - 1)) /\
  Point.M8 p = (if np_lt (Point.M8_ad p) 1 then Point.M8_ad p else fin 1) /\
  Point.V8 p = (Point.M8 p *! np_sqrt (gamma * R_gas * Point.Tt8 p))%np /\
  (Point.Tt18 p = Point.Tt13 p /\ Point.Pt18 p = Point.Pt13 p /\
   exists b18,
     py_pow (Point.Pt18 p / Ps0) ((gamma - 1) / gamma) = Ok b18 /\
     Point.M18_ad p = np_sqrt ((2 / (gamma - 1)) * b18 - 1)) /\
  Point.M18 p = (if np_lt (Point.M18_ad p) 1 then Point.M18_ad p else fin 1) /\
  Point.V18 p = (Point.M18 p *! np_sqrt (gamma * R_gas * Point.Tt18 p))%np.
Proof.
  pose proof Hp as H. invert_point H.
  apply py_div_inv in Hv11, Hv13.
  destruct Hv11 as [? ->], Hv13 as [? ->].
  repeat split; try assumption; try reflexivity.
  - eexists; split; [eassumption | reflexivity].
  - eexists; split; [eassumption | reflexivity].
Qed.

Lemma point_thrust :
  Point.V0 p = (fin M0 *! np_sqrt (gamma * R_gas * Ts0))%np /\
  Point.T_fp p = (fin ((1 + Point.f p) * Point.dm_fp p) *! Point.V8 p)%np /\
  Point.T_fs p = (fin (Point.dm_fs p) *! Point.V18 p)%np /\
  Point.T p = (Point.T_fp p +! Point.T_fs p -! fin dm *! Point.V0 p)%np /\
  Point.ST p = (Point.T p /! fin dm)%np /\
  Point.TSFC p = (fin (Point.dm_f p) /! Point.ST p)%np.
Proof.
  pose proof Hp as H. invert_point H. repeat split; reflexivity.
Qed.

Lemma point_power :
  Point.Wprop p = (Point.T p *! Point.V0 p)%np /\
  Point.Wcin p =
    ((fin ((1 + Point.f p) * Point.dm_fp p) *! np_sq (Point.V8 p)) /! fin 2
     +! (fin (Point.dm_fs p) *! np_sq (Point.V18 p)) /! fin 2
     -! (fin dm *! np_sq (Point.V0 p)) /! fin 2)%np /\
  Point.nprop p = (Point.Wprop p /! Point.Wcin p)%np /\
  Point.nth p = (Point.Wcin p /! fin (Point.Wth p))%np /\
  Point.nglob p = (Point.Wprop p /! fin (Point.Wth p))%np.
Proof.
  pose proof Hp as H. invert_point H. repeat split; reflexivity.
Qed.

Lemma point_areas :
  Point.A8 p =
    ((fin ((1 + Point.f p) * Point.dm_fp p) *! np_sqrt (Point.Tt8 p))
     /! fin (Point.Pt8 p))%np /\
  Point.A18 p =
    ((fin (Point.dm_fs p) *! np_sqrt (Point.Tt18 p)) /! fin (Point.Pt18 p))%np.
Proof.
  pose proof Hp as H. invert_point H. repeat split; reflexivity.
Qed.

End Point_facts.

(** The closed forms are the values of the pass. *)
Lemma point_closed_forms
      (dm beta pi_fan pi_hpc Tt4 M0 Ts0 Ps0 M1 M2 : R) (p : Point.locals) :
  cycle_point dm beta pi_fan pi_hpc Tt4 M0 Ts0 Ps0 M1 M2 = Ok p ->
  0 < pi_fan -> 0 < pi_hpc ->
  Point.Tt2 p = Tt2_of M0 Ts0 /\
  Point.Tt13 p = Tt13_of pi_fan M0 Ts0 /\
  Point.Tt3 p = Tt3_of pi_fan pi_hpc M0 Ts0 /\
  Point.f p = f_of pi_fan pi_hpc Tt4 M0 Ts0 /\
  Point.Tt42 p = Tt42_of pi_fan pi_hpc Tt4 M0 Ts0 /\
  Point.Tt5 p = Tt5_of beta pi_fan pi_hpc Tt4 M0 Ts0.
Proof.
  intros Hp Hfan Hhpc.
  destruct (point_inlet _ _ _ _ _ _ _ _ _ _ _ Hp) as (E2 & _).
  destruct (point_fan _ _ _ _ _ _ _ _ _ _ _ Hp) as (_ & _ & _ & E13 & E3).
  destruct (point_fuel _ _ _ _ _ _ _ _ _ _ _ Hp)
    as (_ & _ & _ & Hpci & Edmf & Hfp & Ef & _).
  destruct (point_turbines _ _ _ _ _ _ _ _ _ _ _ Hp)
    as (_ & E42 & _ & _ & E5 & _).
  specialize (E13 Hfan). specialize (E3 Hfan Hhpc).
  assert (F : Point.f p = f_of pi_fan pi_hpc Tt4 M0 Ts0).
  { rewrite Ef, Edmf, E3. unfold f_of. field. split; assumption. }
  assert (F42 : Point.Tt42 p = Tt42_of pi_fan pi_hpc Tt4 M0 Ts0).
  { rewrite E42, E3, E13, F. reflexivity. }
  repeat split; try assumption.
  rewrite E5, F42, E13, E2, F. reflexivity.
Qed.

(** ** Inputs on which a pass evaluates *)

Lemma cycle_point_defined (dm beta pi_fan pi_hpc Tt4 M0 Ts0 Ps0 M1 M2 : R) :
  dm <> 0 -> 1 + beta <> 0 -> 0 < pi_fan -> 0 < pi_hpc ->
  Tt4 <> 0 -> PCI - Tt4 <> 0 -> 0 < Ps0 ->
  1 + f_of pi_fan pi_hpc Tt4 M0 Ts0 <> 0 ->
  0 < Tt42_of pi_fan pi_hpc Tt4 M0 Ts0 / Tt4 ->
  0 < Tt5_of beta pi_fan pi_hpc Tt4 M0 Ts0 / Tt42_of pi_fan pi_hpc Tt4 M0 Ts0 ->
  exists p, cycle_point dm beta pi_fan pi_hpc Tt4 M0 Ts0 Ps0 M1 M2 = Ok p.
Proof.
  intros Hdm Hb Hfan Hhpc Ht4 Hpci Hps Hf H42 H5.
  assert (Hfp : dm / (1 + beta) <> 0).
  { unfold Rdiv. apply Rmult_integral_contrapositive_currified; auto.
    now apply Rinv_neq_0_compat. }
  assert (N42 : Tt42_of pi_fan pi_hpc Tt4 M0 Ts0 <> 0).
  { intros E. rewrite E in H42. unfold Rdiv in H42. rewrite Rmult_0_l in H42. lra. }
  unfold cycle_point; cbv zeta.
  rewrite (py_pow_pos (1 + (gamma - 1) / 2 * M0 ^ 2)) by apply inlet_base_pos.
  cbn [bind].
  rewrite (py_pow_pos pi_fan) by assumption. cbn [bind].
  rewrite (py_div_ok dm) by assumption. cbn [bind].
  rewrite (py_pow_pos pi_hpc) by assumption. cbn [bind].
  rewrite (py_div_ok _ (PCI - Tt4)) by assumption. cbn [bind].
  rewrite (py_div_ok _ (dm / (1 + beta))) by assumption. cbn [bind].
  fold (Tt2_of M0 Ts0). fold (Tt13_of pi_fan M0 Ts0).
  fold (Tt3_of pi_fan pi_hpc M0 Ts0).
  replace (dm / (1 + beta) * cp * (Tt4 - Tt3_of pi_fan pi_hpc M0 Ts0)
           / (PCI - Tt4) / (dm / (1 + beta)))
    with (f_of pi_fan pi_hpc Tt4 M0 Ts0)
    by (unfold f_of; field; repeat split; assumption).
  rewrite (py_div_ok _ (1 + f_of pi_fan pi_hpc Tt4 M0 Ts0)) by assumption.
  cbn [bind]. fold (Tt42_of pi_fan pi_hpc Tt4 M0 Ts0).
  rewrite (py_div_ok _ Tt4) by assumption. cbn [bind].
  rewrite (py_pow_pos _ _ H42). cbn [bind].
  rewrite (py_div_ok _ (1 + f_of pi_fan pi_hpc Tt4 M0 Ts0)) by assumption.
  cbn [bind]. fold (Tt5_of beta pi_fan pi_hpc Tt4 M0 Ts0).
  rewrite (py_div_ok _ (Tt42_of pi_fan pi_hpc Tt4 M0 Ts0)) by assumption.
  cbn [bind].
  rewrite (py_pow_pos _ _ H5). cbn [bind].
  rewrite (py_div_ok _ Ps0) by lra. cbn [bind].
  rewrite py_pow_pos.
  2:{ apply Rdiv_lt_0_compat; [|assumption].
      repeat apply Rmult_lt_0_compat; auto using Rpower_pos. }
  cbn [bind].
  rewrite (py_div_ok _ Ps0) by lra. cbn [bind].
  rewrite py_pow_pos.
  2:{ apply Rdiv_lt_0_compat; [|assumption].
      repeat apply Rmult_lt_0_compat; auto using Rpower_pos. }
  cbn [bind].
  rewrite (py_pow_pos (1 + (gamma - 1) / 2 * M1 ^ 2)) by apply inlet_base_pos.
  cbn [bind].
  rewrite (py_pow_pos (1 + (gamma - 1) / 2 * M2 ^ 2)) by apply inlet_base_pos.
  cbn [bind].
  eexists. reflexivity.
Qed.

(** ** The sweep *)

Lemma fold_save_results (ps : list Point.locals) (res : results) :
  fold_left save_results ps res =
  mk_results
    (T_list res ++ map Point.T ps) (T_fp_list res ++ map Point.T_fp ps)
    (T_fs_list res ++ map Point.T_fs ps) (ST_list res ++ map Point.ST ps)
    (TSFC_list res ++ map Point.TSFC ps) (Wprop_list res ++ map Point.Wprop ps)
    (Wcin_list res ++ map Point.Wcin ps) (Wth_list res ++ map Point.Wth ps)
    (nprop_list res ++ map Point.nprop ps) (nth_list res ++ map Point.nth ps)
    (nglob_list res ++ map Point.nglob ps) (A1_list res ++ map Point.A1 ps)
    (A2_list res ++ map Point.A2 ps) (A8_list res ++ map Point.A8 ps)
    (A18_list res ++ map Point.A18 ps).
Proof.
  revert res. induction ps as [|p ps IH]; intros res.
  - destruct res; simpl. now rewrite !app_nil_r.
  - simpl fold_left. rewrite IH. destruct res; simpl.
    now rewrite <- !app_assoc.
Qed.

Section Sweep_facts.

Variables dm beta pi_fan Tt4 M0 Ts0 Ps0 M1 M2 : R.

Lemma sweep_passes (ratios : list R) (ps : list Point.locals) (res : results) :
  passes dm beta pi_fan Tt4 M0 Ts0 Ps0 M1 M2 ratios ps ->
  sweep dm beta pi_fan Tt4 M0 Ts0 Ps0 M1 M2 ratios res
  = Ok (fold_left save_results ps res).
Proof.
  intros H. revert res. induction H as [|r p ratios ps Hr _ IH]; intros res.
  - reflexivity.
  - simpl. rewrite Hr. simpl. apply IH.
Qed.

Lemma sweep_Ok_inv (ratios : list R) (res res' : results) :
  sweep dm beta pi_fan Tt4 M0 Ts0 Ps0 M1 M2 ratios res = Ok res' ->
  exists ps, passes dm beta pi_fan Tt4 M0 Ts0 Ps0 M1 M2 ratios ps /\ res' = fold_left save_results ps res.
Proof.
  revert res. induction ratios as [|r ratios IH]; intros res H.
  - injection H as <-. exists []. split; [constructor | reflexivity].
  - simpl in H. apply bind_Ok in H. destruct H as (p & Hp & H).
    destruct (IH _ H) as (ps & Hps & ->).
    exists (p :: ps). split; [constructor; assumption | reflexivity].
Qed.

Lemma compute_passes (ratios : list R) (ps : list Point.locals) :
  passes dm beta pi_fan Tt4 M0 Ts0 Ps0 M1 M2 ratios ps ->
  compute_engine_performance dm beta pi_fan ratios Tt4 M0 Ts0 Ps0 M1 M2
  = Ok (results_of ps).
Proof.
  intros H. unfold compute_engine_performance.
  rewrite (sweep_passes _ _ _ H), fold_save_results. reflexivity.
Qed.

Lemma compute_Ok_inv (ratios : list R) (res : results) :
  compute_engine_performance dm beta pi_fan ratios Tt4 M0 Ts0 Ps0 M1 M2 = Ok res ->
  exists ps, passes dm beta pi_fan Tt4 M0 Ts0 Ps0 M1 M2 ratios ps /\ res = results_of ps.
Proof.
  intros H. apply sweep_Ok_inv in H. destruct H as (ps & Hps & ->).
  exists ps. split; [assumption|]. now rewrite fold_save_results.
Qed.

Lemma passes_exist (ratios : list R) :
  Forall (fun pi_hpc =>
            exists p, cycle_point dm beta pi_fan pi_hpc Tt4 M0 Ts0 Ps0 M1 M2 = Ok p)
         ratios ->
  exists ps, passes dm beta pi_fan Tt4 M0 Ts0 Ps0 M1 M2 ratios ps.
Proof.
  induction 1 as [|r l (p & Hp) _ (ps & IH)].
  - exists []. constructor.
  - exists (p :: ps). constructor; assumption.
Qed.

End Sweep_facts.

(** Equal-length lists whose images under [g] agree pairwise have the same
    image list. *)
Lemma map_const_eq {A B : Type} (g : A -> B) (l1 l2 : list A) :
  length l1 = length l2 ->
  (forall a b, In a l1 -> In b l2 -> g a = g b) ->
  map g l1 = map g l2.
Proof.
  revert l2. induction l1 as [|a l1 IH]; intros [|b l2] Hlen Hg;
    try discriminate; [reflexivity|].
  simpl. f_equal.
  - apply Hg; now left.
  - apply IH; [now injection Hlen | intros; apply Hg; now right].
Qed.

(** ** numpy values *)

Lemma np_mul_one_l (a : npfloat) : (fin 1 *! a)%np = a.
Proof. destruct a as [x|]; simpl; [f_equal; lra | reflexivity]. Qed.

Lemma np_sqrt_Some (x : R) : 0 <= x -> np_sqrt x = Some (sqrt x).
Proof.
  intros Hx. unfold np_sqrt. destruct (Rlt_dec x 0); [lra | reflexivity].
Qed.

Lemma np_sqrt_None (x : R) : x < 0 -> np_sqrt x = None.
Proof.
  intros Hx. unfold np_sqrt. destruct (Rlt_dec x 0); [reflexivity | lra].
Qed.

Lemma np_div_Some (x y : R) : y <> 0 -> (Some x /! Some y)%np = Some (x / y).
Proof.
  intros Hy. simpl. destruct (Req_dec_T y 0); [contradiction | reflexivity].
Qed.

Lemma np_lt_true (a : npfloat) (y : R) :
  np_lt a y = true <-> exists x, a = Some x /\ x < y.
Proof.
  destruct a as [x|]; simpl.
  - destruct (Rlt_dec x y) as [L|L]; split.
    + intros _. exists x. auto.
    + reflexivity.
    + discriminate.
    + intros (x' & E & L'). injection E as <-. contradiction.
  - split; [discriminate | intros (x & E & _); discriminate].
Qed.

(** ** The secondary stream *)

Section Secondary.

Variables dm beta pi_fan pi_hpc Tt4 M0 Ts0 Ps0 M1 M2 : R.
Variable p : Point.locals.
Hypothesis Hp : cycle_point dm beta pi_fan pi_hpc Tt4 M0 Ts0 Ps0 M1 M2 = Ok p.

(** Everything the secondary outputs are made of is computed from the
    engine and flight inputs before the compressor ratio is looked at. *)
Lemma point_secondary :
  exists b13 r18 b18,
    py_pow pi_fan ((gamma - 1) / gamma) = Ok b13 /\
    py_div (Ps0 * Rpower (1 + (gamma - 1) / 2 * M0 ^ 2) (gamma / (gamma - 1))
            * pi_fan) Ps0 = Ok r18 /\
    py_pow r18 ((gamma - 1) / gamma) = Ok b18 /\
    Point.Tt13 p = Tt2_of M0 Ts0 * b13 /\
    Point.Pt18 p =
      Ps0 * Rpower (1 + (gamma - 1) / 2 * M0 ^ 2) (gamma / (gamma - 1)) * pi_fan /\
    Point.M18_ad p = np_sqrt ((2 / (gamma - 1)) * b18 - 1) /\
    Point.T_fs p =
      (fin (dm - dm / (1 + beta))
       *! ((if np_lt (np_sqrt ((2 / (gamma - 1)) * b18 - 1)) 1
            then np_sqrt ((2 / (gamma - 1)) * b18 - 1) else fin 1)
           *! np_sqrt (gamma * R_gas * (Tt2_of M0 Ts0 * b13))))%np /\
    Point.A18 p =
      ((fin (dm - dm / (1 + beta)) *! np_sqrt (Tt2_of M0 Ts0 * b13))
       /! fin (Ps0 * Rpower (1 + (gamma - 1) / 2 * M0 ^ 2) (gamma / (gamma - 1))
               * pi_fan))%np.
Proof.
  pose proof Hp as H. invert_point H.
  rewrite py_pow_pos in Hv by apply inlet_base_pos. injection Hv as <-.
  apply py_div_inv in Hv1. destruct Hv1 as [_ ->].
  exists v0, v13, v14. unfold Tt2_of. repeat split; assumption || reflexivity.
Qed.

Lemma point_compressor :
  exists b13 b3,
    py_pow pi_fan ((gamma - 1) / gamma) = Ok b13 /\
    py_pow pi_hpc ((gamma - 1) / gamma) = Ok b3 /\
    Point.Tt13 p = Tt2_of M0 Ts0 * b13 /\
    Point.Tt3 p = Tt2_of M0 Ts0 * b13 * b3.
Proof.
  pose proof Hp as H. invert_point H.
  exists v0, v2. unfold Tt2_of. repeat split; assumption || reflexivity.
Qed.

End Secondary.

Lemma secondary_independent
      (dm beta pi_fan pi_hpc pi_hpc' Tt4 M0 Ts0 Ps0 M1 M2 : R)
      (p p' : Point.locals) :
  cycle_point dm beta pi_fan pi_hpc Tt4 M0 Ts0 Ps0 M1 M2 = Ok p ->
  cycle_point dm beta pi_fan pi_hpc' Tt4 M0 Ts0 Ps0 M1 M2 = Ok p' ->
  Point.T_fs p = Point.T_fs p' /\ Point.A18 p = Point.A18 p'.
Proof.
  intros H H'.
  destruct (point_secondary _ _ _ _ _ _ _ _ _ _ _ H)
    as (b13 & r18 & b18 & E1 & E2 & E3 & _ & _ & _ & -> & ->).
  destruct (point_secondary _ _ _ _ _ _ _ _ _ _ _ H')
    as (b13' & r18' & b18' & E1' & E2' & E3' & _ & _ & _ & -> & ->).
  rewrite E1 in E1'. injection E1' as <-.
  rewrite E2 in E2'. injection E2' as <-.
  rewrite E3 in E3'. injection E3' as <-.
  split; reflexivity.
Qed.

(** ** Bounds on the powers and roots of the program *)

Lemma Rpower_ge_1 (x y : R) : 1 <= x -> 0 <= y -> 1 <= Rpower x y.
Proof.
  intros Hx Hy. rewrite <- (Rpower_one_base y).
  apply Rle_Rpower_l; [assumption | lra].
Qed.

Lemma Rpower_7_2 (x : R) : 0 < x -> Rpower x (7 / 2) = x ^ 3 * sqrt x.
Proof.
  intros Hx. replace (7 / 2) with (INR 3 + / 2) by (simpl; lra).
  rewrite Rpower_plus, Rpower_pow, Rpower_sqrt by assumption. reflexivity.
Qed.

Lemma Rpower_2_7 (x : R) : 0 < x -> Rpower (Rpower x (2 / 7)) (INR 7) = x ^ 2.
Proof.
  intros Hx. rewrite Rpower_mult.
  replace (2 / 7 * INR 7) with (INR 2) by (simpl; lra).
  now apply Rpower_pow.
Qed.

Lemma Rpower_2_7_lower (a x : R) :
  0 < a -> 0 < x -> a ^ 7 <= x ^ 2 -> a <= Rpower x (2 / 7).
Proof.
  intros Ha Hx H.
  destruct (Rle_or_lt a (Rpower x (2 / 7))) as [L|L]; [exact L|exfalso].
  assert (E : Rpower (Rpower x (2 / 7)) (INR 7) < Rpower a (INR 7)).
  { apply Rlt_Rpower_l; [simpl; lra | split; [apply Rpower_pos | exact L]]. }
  rewrite Rpower_2_7, Rpower_pow in E by assumption. lra.
Qed.

Lemma Rpower_2_7_upper (b x : R) :
  0 < b -> 0 < x -> x ^ 2 <= b ^ 7 -> Rpower x (2 / 7) <= b.
Proof.
  intros Hb Hx H.
  destruct (Rle_or_lt (Rpower x (2 / 7)) b) as [L|L]; [exact L|exfalso].
  assert (E : Rpower b (INR 7) < Rpower (Rpower x (2 / 7)) (INR 7)).
  { apply Rlt_Rpower_l; [simpl; lra | split; [exact Hb | exact L]]. }
  rewrite Rpower_2_7, Rpower_pow in E by assumption. lra.
Qed.

Lemma sqrt_lower (a x : R) : 0 <= a -> a * a <= x -> a <= sqrt x.
Proof.
  intros Ha H. rewrite <- (sqrt_square a Ha). apply sqrt_le_1_alt. exact H.
Qed.

Lemma sqrt_upper (b x : R) : 0 <= b -> x <= b * b -> sqrt x <= b.
Proof.
  intros Hb H. rewrite <- (sqrt_square b Hb). apply sqrt_le_1_alt. exact H.
Qed.

Lemma div_le_self (x d : R) : 0 <= x -> 1 <= d -> 0 <= x / d <= x.
Proof.
  intros Hx Hd.
  assert (Hi : 0 < / d <= 1).
  { split; [apply Rinv_0_lt_compat; lra|].
    rewrite <- Rinv_1. apply Rinv_le_contravar; lra. }
  unfold Rdiv. split; [apply Rmult_le_pos; lra|].
  rewrite <- (Rmult_1_r x) at 2. apply Rmult_le_compat_l; lra.
Qed.

Lemma div_ge_bound (x d c : R) : 0 <= x -> 0 < d <= c -> x / c <= x / d.
Proof.
  intros Hx [Hd Hc]. unfold Rdiv. apply Rmult_le_compat_l; [exact Hx|].
  apply Rinv_le_contravar; assumption.
Qed.

(** ** Physically meaningful inputs evaluate

    Compression ratios at least 1, a combustor exit temperature between
    the compressor exit temperature and [PCI], and turbines that are not
    asked for more than the enthalpy available. *)

Lemma cycle_point_valid (dm beta pi_fan pi_hpc Tt4 M0 Ts0 Ps0 M1 M2 : R) :
  0 < dm -> 0 <= beta -> 1 <= pi_fan -> 1 <= pi_hpc -> 0 < Ts0 -> 0 < Ps0 ->
  Tt3_of pi_fan pi_hpc M0 Ts0 <= Tt4 -> Tt4 < PCI ->
  (Tt3_of pi_fan pi_hpc M0 Ts0 - Tt13_of pi_fan M0 Ts0)
  + (1 + beta) * (Tt13_of pi_fan M0 Ts0 - Tt2_of M0 Ts0) < Tt4 ->
  exists p, cycle_point dm beta pi_fan pi_hpc Tt4 M0 Ts0 Ps0 M1 M2 = Ok p.
Proof.
  intros Hdm Hb Hfan Hhpc Hts Hps H34 Hpci Hwork.
  assert (Ha : 0 < Tt2_of M0 Ts0).
  { unfold Tt2_of. apply Rmult_lt_0_compat; [assumption | apply inlet_base_pos]. }
  assert (He : 0 <= (gamma - 1) / gamma) by (rewrite exponent_T; lra).
  pose proof (Rpower_ge_1 pi_fan _ Hfan He) as B13.
  pose proof (Rpower_ge_1 pi_hpc _ Hhpc He) as B3.
  assert (H13 : Tt2_of M0 Ts0 <= Tt13_of pi_fan M0 Ts0).
  { unfold Tt13_of. rewrite <- (Rmult_1_r (Tt2_of M0 Ts0)) at 1.
    apply Rmult_le_compat_l; lra. }
  assert (H3 : Tt13_of pi_fan M0 Ts0 <= Tt3_of pi_fan pi_hpc M0 Ts0).
  { unfold Tt3_of. rewrite <- (Rmult_1_r (Tt13_of pi_fan M0 Ts0)) at 1.
    apply Rmult_le_compat_l; lra. }
  assert (Hw2 : 0 <= (1 + beta) * (Tt13_of pi_fan M0 Ts0 - Tt2_of M0 Ts0))
    by (apply Rmult_le_pos; lra).
  assert (Hf : 0 <= f_of pi_fan pi_hpc Tt4 M0 Ts0).
  { unfold f_of, Rdiv. apply Rmult_le_pos.
    - apply Rmult_le_pos; [unfold cp; lra | lra].
    - apply Rlt_le, Rinv_0_lt_compat. lra. }
  assert (Hd : 1 <= 1 + f_of pi_fan pi_hpc Tt4 M0 Ts0) by lra.
  pose proof (div_le_self (Tt3_of pi_fan pi_hpc M0 Ts0 - Tt13_of pi_fan M0 Ts0)
                           _ ltac:(lra) Hd) as Q42.
  pose proof (div_le_self _ _ Hw2 Hd) as Q5.
  assert (P42 : 0 < Tt42_of pi_fan pi_hpc Tt4 M0 Ts0) by (unfold Tt42_of; lra).
  assert (P5 : 0 < Tt5_of beta pi_fan pi_hpc Tt4 M0 Ts0)
    by (unfold Tt5_of, Tt42_of; lra).
  apply cycle_point_defined; try lra.
  - apply Rdiv_lt_0_compat; lra.
  - apply Rdiv_lt_0_compat; lra.
Qed.

(** ** The example of [main.py]: bounds *)

Lemma main_Tt2 : Tt2_of Main.M0 Main.Ts0 = 321.203925.
Proof. unfold Tt2_of, Main.M0, Main.Ts0, gamma. lra. Qed.

Lemma main_fan_rise : 1.12 <= Rpower Main.pi_fan ((gamma - 1) / gamma) <= 1.13.
Proof.
  rewrite exponent_T. unfold Main.pi_fan.
  split; [apply Rpower_2_7_lower | apply Rpower_2_7_upper]; lra.
Qed.

Lemma main_Tt13 : 359.74 <= Tt13_of Main.pi_fan Main.M0 Main.Ts0 <= 362.97.
Proof.
  unfold Tt13_of. rewrite main_Tt2. pose proof main_fan_rise. lra.
Qed.

Lemma main_compressor_rise (pi_hpc : R) :
  1 <= pi_hpc <= 14 -> 1 <= Rpower pi_hpc ((gamma - 1) / gamma) <= 2.2.
Proof.
  intros [L U]. split.
  - apply Rpower_ge_1; [assumption | rewrite exponent_T; lra].
  - rewrite exponent_T. apply Rpower_2_7_upper; try lra.
    assert (pi_hpc ^ 2 <= 14 ^ 2) by (apply pow_incr; lra). lra.
Qed.

(** Every ratio of the sweep of [main.py] evaluates, also for another
    combustor exit temperature above 800 K. *)
Lemma main_Tt3 (pi_hpc : R) :
  1 <= pi_hpc <= 14 ->
  Tt13_of Main.pi_fan Main.M0 Main.Ts0
  <= Tt3_of Main.pi_fan pi_hpc Main.M0 Main.Ts0 <= 799.
Proof.
  intros Hr.
  pose proof main_Tt13 as H13. pose proof (main_compressor_rise _ Hr) as H3.
  unfold Tt3_of. split.
  - rewrite <- (Rmult_1_r (Tt13_of _ _ _)) at 1.
    apply Rmult_le_compat_l; lra.
  - apply Rle_trans with (362.97 * 2.2); [|lra].
    apply Rmult_le_compat; lra.
Qed.

Lemma main_point_defined (pi_hpc Tt4 : R) :
  1 <= pi_hpc <= 14 -> 800 <= Tt4 < PCI ->
  exists p, cycle_point Main.dm Main.beta Main.pi_fan pi_hpc Tt4
                        Main.M0 Main.Ts0 Main.Ps0 Main.M1 Main.M2 = Ok p.
Proof.
  intros Hr Ht.
  pose proof main_Tt13 as H13. pose proof (main_Tt3 _ Hr) as H3.
  apply cycle_point_valid.
  - unfold Main.dm; lra.
  - unfold Main.beta; lra.
  - unfold Main.pi_fan; lra.
  - lra.
  - unfold Main.Ts0; lra.
  - unfold Main.Ps0; lra.
  - lra.
  - lra.
  - rewrite main_Tt2. unfold Main.beta. lra.
Qed.

Lemma main_Tt4_in_range : 800 <= Main.Tt4 < PCI.
Proof. unfold Main.Tt4, PCI. lra. Qed.

(** The exit Mach number that the clamp reports is a real number between
    0 and 1, whatever the adiabatic solution. *)
Lemma exit_mach_range (x : R) :
  exists m, (if np_lt (np_sqrt x) 1 then np_sqrt x else fin 1) = Some m
            /\ 0 <= m <= 1.
Proof.
  unfold np_sqrt. destruct (Rlt_dec x 0) as [N|N]; simpl.
  - exists 1. split; [reflexivity | lra].
  - destruct (Rlt_dec (sqrt x) 1) as [L|L].
    + exists (sqrt x). split; [reflexivity|]. pose proof (sqrt_pos x). lra.
    + exists 1. split; [reflexivity | lra].
Qed.

(** A reservoir pressure not below the ambient pressure makes the
    adiabatic solution, as the program computes it, at least 2: the nozzle
    is then reported choked. *)
Lemma exit_mach_choked (b : R) :
  1 <= b ->
  np_sqrt ((2 / (gamma - 1)) * b - 1) = Some (sqrt ((2 / (gamma - 1)) * b - 1))
  /\ 2 <= sqrt ((2 / (gamma - 1)) * b - 1)
  /\ (if np_lt (np_sqrt ((2 / (gamma - 1)) * b - 1)) 1
      then np_sqrt ((2 / (gamma - 1)) * b - 1) else fin 1) = fin 1.
Proof.
  intros Hb.
  assert (R4 : 4 <= 2 / (gamma - 1) * b - 1) by (unfold gamma; lra).
  assert (S2 : 2 <= sqrt (2 / (gamma - 1) * b - 1)) by (apply sqrt_lower; lra).
  rewrite np_sqrt_Some by lra. repeat split; [exact S2|].
  simpl. destruct (Rlt_dec (sqrt (2 / (gamma - 1) * b - 1)) 1); [lra | reflexivity].
Qed.

(** The first point of the sweep of [main.py], [pi_hpc = 1.0]. *)
Section Main_first_point.

Variable p : Point.locals.
Hypothesis Hp :
  cycle_point Main.dm Main.beta Main.pi_fan 1 Main.Tt4
              Main.M0 Main.Ts0 Main.Ps0 Main.M1 Main.M2 = Ok p.

Lemma main_first_point :
  exists v8 v18 v0 t wc,
    Point.dm_fp p = 35 /\ Point.dm_fs p = 175 /\
    359.74 <= Point.Tt13 p <= 362.97 /\ Point.Tt3 p = Point.Tt13 p /\
    0 < Point.dm_f p /\ 0 < Point.f p <= 0.02 /\
    Point.Tt42 p = 1300 /\ 1049 <= Point.Tt5 p <= 1074 /\
    Point.V8 p = Some v8 /\ 0 <= v8 /\
    Point.M18 p = fin 1 /\ Point.V18 p = Some v18 /\ 380 <= v18 /\
    Point.V0 p = Some v0 /\ 0 <= v0 <= 285.6 /\
    Point.T p = Some t /\ 0 < t /\
    Point.Wcin p = Some wc /\ 0 < wc /\ 0 < Point.Wth p.
Proof.
  destruct (point_inlet _ _ _ _ _ _ _ _ _ _ _ Hp) as (E2 & EP2).
  destruct (point_fan _ _ _ _ _ _ _ _ _ _ _ Hp) as (EP13 & _ & _ & E13 & E3).
  destruct (point_fuel _ _ _ _ _ _ _ _ _ _ _ Hp)
    as (_ & Efp & Efs & _ & Edmf & _ & Ef & Ewth).
  destruct (point_turbines _ _ _ _ _ _ _ _ _ _ _ Hp)
    as (_ & E42 & _ & _ & E5 & _).
  destruct (point_nozzles _ _ _ _ _ _ _ _ _ _ _ Hp)
    as (_ & (E8 & _ & b8 & _ & EM8ad) & EM8 & EV8
        & (E18 & EP18 & b18 & Hb18 & EM18ad) & EM18 & EV18).
  destruct (point_thrust _ _ _ _ _ _ _ _ _ _ _ Hp)
    as (EV0 & ETfp & ETfs & ET & _).
  destruct (point_power _ _ _ _ _ _ _ _ _ _ _ Hp) as (_ & EWcin & _).
  specialize (E13 ltac:(unfold Main.pi_fan; lra)).
  specialize (E3 ltac:(unfold Main.pi_fan; lra) ltac:(lra)).
  unfold Tt3_of in E3. rewrite Rpower_one_base, Rmult_1_r, <- E13 in E3.
  pose proof main_Tt13 as B13. rewrite <- E13 in B13.
  fold (Tt2_of Main.M0 Main.Ts0) in E2. rewrite main_Tt2 in E2.
  assert (Hfp : Point.dm_fp p = 35) by (rewrite Efp; unfold Main.dm, Main.beta; lra).
  assert (Hfs : Point.dm_fs p = 175) by (rewrite Efs, Hfp; unfold Main.dm; lra).
  assert (Hdmf : 0 < Point.dm_f p).
  { rewrite Edmf, Hfp, E3. unfold Main.Tt4, cp, PCI. lra. }
  assert (Hf : 0 < Point.f p <= 0.02).
  { rewrite Ef, Hfp. split; [lra|].
    rewrite Edmf, Hfp, E3. unfold Main.Tt4, cp, PCI. lra. }
  assert (H42 : Point.Tt42 p = 1300).
  { rewrite E42, E3. unfold Main.Tt4, Rdiv. lra. }
  assert (H5 : 1049 <= Point.Tt5 p <= 1074).
  { rewrite E5, H42, E2.
    pose proof (div_le_self ((1 + Main.beta) * (Point.Tt13 p - 321.203925))
                            (1 + Point.f p)
                            ltac:(unfold Main.beta; lra) ltac:(lra)) as Q.
    pose proof (div_ge_bound ((1 + Main.beta) * (Point.Tt13 p - 321.203925))
                             (1 + Point.f p) 1.02
                             ltac:(unfold Main.beta; lra) ltac:(lra)) as Q'.
    unfold Main.beta in *. lra. }
  (* primary nozzle *)
  rewrite E8 in EV8.
  rewrite (np_sqrt_Some (gamma * R_gas * Point.Tt5 p)) in EV8
    by (unfold gamma, R_gas; lra).
  rewrite EM8ad in EM8.
  destruct (exit_mach_range (2 / (gamma - 1) * b8 - 1)) as (m8 & Em8 & Hm8).
  rewrite Em8 in EM8. rewrite EM8 in EV8. simpl in EV8.
  assert (Hv8 : 0 <= m8 * sqrt (gamma * R_gas * Point.Tt5 p))
    by (apply Rmult_le_pos; [lra | apply sqrt_pos]).
  (* secondary nozzle *)
  rewrite EP18, EP13, EP2 in Hb18.
  assert (HQ : 1 <= Rpower (1 + (gamma - 1) / 2 * Main.M0 ^ 2) (gamma / (gamma - 1))).
  { apply Rpower_ge_1; [unfold Main.M0, gamma; lra | rewrite exponent_P; lra]. }
  replace (Main.Ps0
           * Rpower (1 + (gamma - 1) / 2 * Main.M0 ^ 2) (gamma / (gamma - 1))
           * Main.pi_fan / Main.Ps0)
    with (Rpower (1 + (gamma - 1) / 2 * Main.M0 ^ 2) (gamma / (gamma - 1))
          * Main.pi_fan)
    in Hb18 by (unfold Main.Ps0; field).
  rewrite py_pow_pos in Hb18 by (unfold Main.pi_fan; lra).
  apply Ok_inj in Hb18. subst b18.
  destruct (exit_mach_choked
              (Rpower (Rpower (1 + (gamma - 1) / 2 * Main.M0 ^ 2)
                              (gamma / (gamma - 1)) * Main.pi_fan)
                      ((gamma - 1) / gamma)))
    as (_ & _ & HM18).
  { apply Rpower_ge_1; [unfold Main.pi_fan; lra | rewrite exponent_T; lra]. }
  rewrite EM18ad, HM18 in EM18.
  rewrite EM18, E18, np_mul_one_l in EV18.
  rewrite np_sqrt_Some in EV18 by (unfold gamma, R_gas; lra).
  assert (Hv18 : 380 <= sqrt (gamma * R_gas * Point.Tt13 p))
    by (apply sqrt_lower; unfold gamma, R_gas; lra).
  (* free stream *)
  rewrite np_sqrt_Some in EV0 by (unfold gamma, R_gas, Main.Ts0; lra).
  simpl in EV0.
  assert (Hs0 : 0 <= sqrt (gamma * R_gas * Main.Ts0) <= 336).
  { split; [apply sqrt_pos|].
    apply sqrt_upper; unfold gamma, R_gas, Main.Ts0; lra. }
  assert (Hv0 : 0 <= Main.M0 * sqrt (gamma * R_gas * Main.Ts0) <= 285.6)
    by (unfold Main.M0; lra).
  (* thrust and kinetic power *)
  assert (Hfp8 : 0 <= (1 + Point.f p) * Point.dm_fp p
                      * (m8 * sqrt (gamma * R_gas * Point.Tt5 p))).
  { apply Rmult_le_pos; [rewrite Hfp; lra | exact Hv8]. }
  assert (Hfp8' : 0 <= (1 + Point.f p) * Point.dm_fp p
                       * (m8 * sqrt (gamma * R_gas * Point.Tt5 p)) ^ 2).
  { apply Rmult_le_pos; [rewrite Hfp; lra | apply pow2_ge_0]. }
  rewrite EV8 in ETfp, EWcin. rewrite EV18 in ETfs, EWcin.
  rewrite EV0 in ET, EWcin. rewrite ETfp, ETfs in ET.
  simpl in ET. unfold np_sq, fin in EWcin.
  cbn [np_mul np_lift2] in EWcin. rewrite !np_div_Some in EWcin by lra.
  simpl in EWcin.
  assert (Hsq18 : 380 * 380 <= sqrt (gamma * R_gas * Point.Tt13 p)
                               * sqrt (gamma * R_gas * Point.Tt13 p))
    by (apply Rmult_le_compat; lra).
  assert (Hsq0 : Main.M0 * sqrt (gamma * R_gas * Main.Ts0)
                 * (Main.M0 * sqrt (gamma * R_gas * Main.Ts0)) <= 285.6 * 285.6)
    by (apply Rmult_le_compat; lra).
  do 5 eexists.
  split; [exact Hfp|]. split; [exact Hfs|]. split; [exact B13|].
  split; [exact E3|]. split; [exact Hdmf|]. split; [exact Hf|].
  split; [exact H42|]. split; [exact H5|].
  split; [exact EV8|]. split; [exact Hv8|].
  split; [exact EM18|]. split; [exact EV18|]. split; [exact Hv18|].
  split; [exact EV0|]. split; [exact Hv0|].
  split; [exact ET|]. split; [rewrite Hfs; unfold Main.dm; lra|].
  split; [exact EWcin|].
  split; [rewrite Hfs; unfold Main.dm; rewrite !Rmult_1_r; lra|].
  rewrite Ewth. unfold PCI. lra.
Qed.

Lemma main_inlet_pressure_rise :
  1.6 <= Rpower (1 + (gamma - 1) / 2 * Main.M0 ^ 2) (gamma / (gamma - 1)) <= 1.61.
Proof.
  rewrite exponent_P.
  replace (1 + (gamma - 1) / 2 * Main.M0 ^ 2) with 1.1445
    by (unfold gamma, Main.M0; lra).
  rewrite Rpower_7_2 by lra.
  assert (1.069 <= sqrt 1.1445) by (apply sqrt_lower; lra).
  assert (sqrt 1.1445 <= 1.07) by (apply sqrt_upper; lra).
  lra.
Qed.

Lemma main_first_nozzles :
  exists m8 m18,
    Point.M8_ad p = Some m8 /\ 2 <= m8 /\ Point.M8 p = fin 1 /\
    M_ad_claimed (Point.Pt8 p) Main.Ps0 < 1 /\
    m8 ^ 2 = M_ad_claimed (Point.Pt8 p) Main.Ps0 ^ 2 + 4 /\
    Point.M18_ad p = Some m18 /\ 2 <= m18 /\
    M_ad_claimed (Point.Pt18 p) Main.Ps0 < 2 /\
    m18 ^ 2 = M_ad_claimed (Point.Pt18 p) Main.Ps0 ^ 2 + 4.
Proof.
  destruct main_first_point
    as (v8 & v18 & v0 & t & wc & _ & _ & _ & _ & _ & _ & H42 & H5 & _).
  destruct (point_inlet _ _ _ _ _ _ _ _ _ _ _ Hp) as (_ & EP2).
  destruct (point_fan _ _ _ _ _ _ _ _ _ _ _ Hp) as (EP13 & EP3 & EP4 & _).
  destruct (point_turbines _ _ _ _ _ _ _ _ _ _ _ Hp)
    as (_ & _ & _ & Eth & _ & _ & Etl & b42 & b5 & Hb42 & Hb5 & EP42 & EP5).
  destruct (point_nozzles _ _ _ _ _ _ _ _ _ _ _ Hp)
    as (_ & (_ & EP8 & b8 & Hb8 & EM8ad) & EM8 & _
        & (_ & EP18 & b18 & Hb18 & EM18ad) & _).
  pose proof main_inlet_pressure_rise as HQ.
  set (Q := Rpower (1 + (gamma - 1) / 2 * Main.M0 ^ 2) (gamma / (gamma - 1))) in *.
  (* turbine pressure ratios *)
  rewrite H42 in Eth, Etl. unfold Main.Tt4 in Eth.
  replace (1300 / 1300) with 1 in Eth by lra.
  rewrite Eth, py_pow_pos, Rpower_one_base in Hb42 by lra.
  apply Ok_inj in Hb42. subst b42.
  assert (Htl : 0.8 <= Point.tau_lpt p <= 0.83) by (rewrite Etl; lra).
  rewrite py_pow_pos, exponent_P, Rpower_7_2 in Hb5 by lra.
  apply Ok_inj in Hb5.
  assert (Hb5' : 0.455 <= b5 <= 0.53).
  { assert (0.89 <= sqrt (Point.tau_lpt p) <= 0.92)
      by (split; [apply sqrt_lower | apply sqrt_upper]; lra).
    assert (0.8 ^ 3 <= Point.tau_lpt p ^ 3) by (apply pow_incr; lra).
    assert (Point.tau_lpt p ^ 3 <= 0.83 ^ 3) by (apply pow_incr; lra).
    subst b5. split.
    - apply Rle_trans with (0.8 ^ 3 * 0.89); [lra|].
      apply Rmult_le_compat; lra.
    - apply Rle_trans with (0.83 ^ 3 * 0.92); [|lra].
      apply Rmult_le_compat; lra. }
  (* primary nozzle *)
  assert (Er8 : Point.Pt8 p / Main.Ps0 = Q * Main.pi_fan * b5).
  { rewrite EP8, EP5, EP42, EP4, EP3, EP13, EP2. unfold Main.Ps0. field. }
  assert (Hr8 : 1 <= Point.Pt8 p / Main.Ps0 <= 1.3).
  { rewrite Er8. unfold Main.pi_fan. split.
    - apply Rle_trans with (1.6 * 1.5 * 0.455); [lra|].
      apply Rmult_le_compat; lra.
    - apply Rle_trans with (1.61 * 1.5 * 0.53); [|lra].
      apply Rmult_le_compat; lra. }
  rewrite py_pow_pos in Hb8 by lra. apply Ok_inj in Hb8.
  assert (Hb8' : 1 <= b8 <= 1.19).
  { subst b8. split.
    - apply Rpower_ge_1; [lra | rewrite exponent_T; lra].
    - rewrite exponent_T. apply Rpower_2_7_upper; try lra.
      assert (Point.Pt8 p / Main.Ps0 * (Point.Pt8 p / Main.Ps0) <= 1.3 * 1.3)
        by (apply Rmult_le_compat; lra).
      lra. }
  destruct (exit_mach_choked b8 ltac:(lra)) as (S8 & G8 & C8).
  (* secondary nozzle *)
  assert (Er18 : Point.Pt18 p / Main.Ps0 = Q * Main.pi_fan).
  { rewrite EP18, EP13, EP2. unfold Main.Ps0. field. }
  assert (Hr18 : 1 <= Point.Pt18 p / Main.Ps0 <= 2.42)
    by (rewrite Er18; unfold Main.pi_fan; lra).
  rewrite py_pow_pos in Hb18 by lra. apply Ok_inj in Hb18.
  assert (Hb18' : 1 <= b18 <= 1.3).
  { subst b18. split.
    - apply Rpower_ge_1; [lra | rewrite exponent_T; lra].
    - rewrite exponent_T. apply Rpower_2_7_upper; try lra.
      assert (Point.Pt18 p / Main.Ps0 * (Point.Pt18 p / Main.Ps0) <= 2.42 * 2.42)
        by (apply Rmult_le_compat; lra).
      lra. }
  destruct (exit_mach_choked b18 ltac:(lra)) as (S18 & G18 & _).
  exists (sqrt (2 / (gamma - 1) * b8 - 1)), (sqrt (2 / (gamma - 1) * b18 - 1)).
  split; [rewrite EM8ad; exact S8|]. split; [exact G8|].
  split; [rewrite EM8, EM8ad; exact C8|].
  split.
  { unfold M_ad_claimed. rewrite Hb8.
    apply Rle_lt_trans with 0.99; [|lra].
    apply sqrt_upper; unfold gamma; lra. }
  split.
  { unfold M_ad_claimed. rewrite Hb8.
    rewrite !pow2_sqrt by (unfold gamma; lra). unfold gamma. lra. }
  split; [rewrite EM18ad; exact S18|]. split; [exact G18|].
  split.
  { unfold M_ad_claimed. rewrite Hb18.
    apply Rle_lt_trans with 1.3; [|lra].
    apply sqrt_upper; unfold gamma; lra. }
  unfold M_ad_claimed. rewrite Hb18.
  rewrite !pow2_sqrt by (unfold gamma; lra). unfold gamma. lra.
Qed.

(** The primary nozzle of that point: the reservoir pressure is not below
    the ambient pressure, and the exit velocity is the sonic one. *)
Lemma main_first_primary_nozzle :
  0 <= (2 / (gamma - 1))
       * (Rpower (Point.Pt8 p / Main.Ps0) ((gamma - 1) / gamma) - 1) /\
  Point.V8 p = fin (sqrt (gamma * R_gas * Point.Tt8 p)) /\
  0 < sqrt (gamma * R_gas * Point.Tt8 p).
Proof.
  destruct main_first_point
    as (v8 & v18 & v0 & t & wc & _ & _ & _ & _ & _ & _ & _ & H5 & _).
  destruct main_first_nozzles as (m8 & m18 & E8 & G8 & C8 & _).
  destruct (point_nozzles _ _ _ _ _ _ _ _ _ _ _ Hp)
    as (_ & (ET8 & _ & b8 & Hb8 & EM8ad) & _ & EV8 & _).
  assert (HT : 0 < gamma * R_gas * Point.Tt8 p)
    by (rewrite ET8; unfold gamma, R_gas; lra).
  split; [|split].
  - rewrite EM8ad in E8. unfold np_sqrt in E8.
    destruct (Rlt_dec (2 / (gamma - 1) * b8 - 1) 0) as [N|N]; [discriminate|].
    injection E8 as E8.
    assert (Q : m8 ^ 2 = 2 / (gamma - 1) * b8 - 1)
      by (rewrite <- E8; apply pow2_sqrt; lra).
    assert (4 <= m8 ^ 2) by (simpl; nra).
    assert (Hb : 1 <= b8) by (unfold gamma in *; lra).
    assert (He : 0 < (gamma - 1) / gamma) by (rewrite exponent_T; lra).
    destruct (py_pow_inv _ _ _ He Hb8) as [(_ & Eb & _) | (_ & Z)]; [|lra].
    rewrite <- Eb.
    unfold gamma in *. lra.
  - rewrite EV8, C8. rewrite np_sqrt_Some by lra. simpl. now rewrite Rmult_1_l.
  - apply sqrt_lt_R0. exact HT.
Qed.

End Main_first_point.

(** ** Rounding *)

Lemma unit_roundoff_small : 0 < unit_roundoff <= 1 / 10 ^ 15.
Proof. unfold unit_roundoff. lra. Qed.

Lemma rounds_to_refl (x : R) : rounds_to x x.
Proof.
  unfold rounds_to. replace (x - x) with 0 by ring. rewrite Rabs_R0.
  apply Rmult_le_pos; [apply Rlt_le, unit_roundoff_small | apply Rabs_pos].
Qed.

Lemma rounds_to_abs (x y : R) :
  rounds_to x y ->
  (1 - unit_roundoff) * Rabs x <= Rabs y <= (1 + unit_roundoff) * Rabs x.
Proof.
  unfold rounds_to. intros H.
  pose proof (Rabs_triang (y - x) x) as T1.
  replace (y - x + x) with y in T1 by ring.
  pose proof (Rabs_triang (x - y) y) as T2.
  replace (x - y + y) with x in T2 by ring.
  rewrite (Rabs_minus_sym x y) in T2. lra.
Qed.

(** The product of the two rounded partial efficiencies, itself rounded,
    is within 8 units of roundoff of the rounded overall efficiency. *)
Lemma rounded_efficiencies_close (Wprop Wcin Wth nprop nth nglob prod : R) :
  Wcin <> 0 -> Wth <> 0 ->
  binary64_efficiencies Wprop Wcin Wth nprop nth nglob ->
  rounds_to (nprop * nth) prod ->
  Rabs (nglob - prod) <= 1 / 10 ^ 9 * Rabs nglob.
Proof.
  intros Hc Ht (H1 & H2 & H3) H4.
  pose proof unit_roundoff_small as Hu.
  pose proof (rounds_to_abs _ _ H1) as A1.
  pose proof (rounds_to_abs _ _ H2) as A2.
  pose proof (rounds_to_abs _ _ H3) as A3.
  assert (Eq : Wprop / Wth = Wprop / Wcin * (Wcin / Wth)) by (field; auto).
  set (q1 := Wprop / Wcin) in *. set (q2 := Wcin / Wth) in *.
  rewrite Eq in *. clear Eq.
  unfold rounds_to in *.
  rewrite !Rabs_mult in *.
  pose proof (Rabs_pos q1) as P1. pose proof (Rabs_pos q2) as P2.
  pose proof (Rabs_pos nprop) as Pa. pose proof (Rabs_pos nth) as Pb.
  set (u := unit_roundoff) in *.
  assert (D : Rabs (q1 * q2 - nprop * nth)
              <= Rabs q1 * (u * Rabs q2) + u * Rabs q1 * Rabs nth).
  { replace (q1 * q2 - nprop * nth)
      with (q1 * (q2 - nth) + (q1 - nprop) * nth) by ring.
    eapply Rle_trans; [apply Rabs_triang|].
    rewrite !Rabs_mult, (Rabs_minus_sym q2 nth), (Rabs_minus_sym q1 nprop).
    apply Rplus_le_compat.
    - apply Rmult_le_compat_l; lra.
    - apply Rmult_le_compat_r; lra. }
  assert (T : Rabs (nglob - prod)
              <= Rabs (nglob - q1 * q2) + Rabs (q1 * q2 - nprop * nth)
                 + Rabs (nprop * nth - prod)).
  { replace (nglob - prod)
      with ((nglob - q1 * q2) + (q1 * q2 - nprop * nth) + (nprop * nth - prod))
      by ring.
    eapply Rle_trans; [apply Rabs_triang|].
    apply Rplus_le_compat_r. apply Rabs_triang. }
  rewrite (Rabs_minus_sym (nprop * nth) prod) in T.
  set (X := Rabs q1 * Rabs q2) in *.
  assert (PX : 0 <= X) by (apply Rmult_le_pos; assumption).
  assert (Q1b : u * Rabs q1 * Rabs nth <= u * (1 + u) * X).
  { unfold X. replace (u * (1 + u) * (Rabs q1 * Rabs q2))
      with (u * Rabs q1 * ((1 + u) * Rabs q2)) by ring.
    apply Rmult_le_compat_l; [|lra]. apply Rmult_le_pos; lra. }
  assert (AB : Rabs nprop * Rabs nth <= (1 + u) * (1 + u) * X).
  { unfold X. replace ((1 + u) * (1 + u) * (Rabs q1 * Rabs q2))
      with (((1 + u) * Rabs q1) * ((1 + u) * Rabs q2)) by ring.
    apply Rmult_le_compat; lra. }
  assert (E4 : u * (Rabs nprop * Rabs nth) <= u * ((1 + u) * (1 + u) * X))
    by (apply Rmult_le_compat_l; lra).
  assert (uX : 0 <= u * X) by (apply Rmult_le_pos; lra).
  assert (uuX : u * u * X <= u * X).
  { replace (u * u * X) with (u * (u * X)) by ring.
    rewrite <- (Rmult_1_l (u * X)) at 2. apply Rmult_le_compat_r; lra. }
  assert (uuuX : u * u * u * X <= u * X).
  { apply Rle_trans with (u * u * X); [|exact uuX].
    replace (u * u * u * X) with (u * (u * u * X)) by ring.
    rewrite <- (Rmult_1_l (u * u * X)) at 2. apply Rmult_le_compat_r; [|lra].
    replace (u * u * X) with (u * (u * X)) by ring.
    apply Rmult_le_pos; lra. }
  assert (F : Rabs (nglob - prod) <= 8 * (u * X)).
  { replace (Rabs q1 * (u * Rabs q2)) with (u * X) in D by (unfold X; ring).
    replace (u * ((1 + u) * (1 + u) * X))
      with (u * X + 2 * (u * u * X) + u * u * u * X) in E4 by ring.
    replace (u * (1 + u) * X) with (u * X + u * u * X) in Q1b by ring.
    lra. }
  assert (uX2 : u * X <= 1 / 10 ^ 15 * X) by (apply Rmult_le_compat_r; lra).
  replace ((1 - u) * X) with (X - u * X) in A3 by ring.
  lra.
Qed.

(** * The claims *)

(** ** Choked-flow clamp *)

(** C2, at the first sweep point of [main.py].  The adiabatic solution of
    the primary nozzle is a real number below 1 there (about 0.53), so the
    nozzle is unchoked and its exit Mach number should be that solution;
    the program reports Mach 1 and the sonic exit velocity
    [sqrt (gamma * R * Tt8)], which is larger than the velocity of the
    adiabatic solution.  The program compares with 1 the value it holds in
    [M8_ad], in which the 1 is subtracted after the multiplication by
    [2/(gamma-1)], and that value is at least 2. *)
Theorem unchoked_nozzle_reported_sonic :
  exists p m8,
    cycle_point Main.dm Main.beta Main.pi_fan 1 Main.Tt4
                Main.M0 Main.Ts0 Main.Ps0 Main.M1 Main.M2 = Ok p /\
    0 <= (2 / (gamma - 1))
         * (Rpower (Point.Pt8 p / Main.Ps0) ((gamma - 1) / gamma) - 1) /\
    M_ad_claimed (Point.Pt8 p) Main.Ps0 < 1 /\
    M_exit_claimed (Point.Pt8 p) Main.Ps0 = M_ad_claimed (Point.Pt8 p) Main.Ps0 /\
    Point.M8_ad p = Some m8 /\ 2 <= m8 /\
    Point.M8 p = fin 1 /\
    Point.M8 p <> fin (M_exit_claimed (Point.Pt8 p) Main.Ps0) /\
    Point.V8 p = fin (sqrt (gamma * R_gas * Point.Tt8 p)) /\
    M_exit_claimed (Point.Pt8 p) Main.Ps0 * sqrt (gamma * R_gas * Point.Tt8 p)
    < sqrt (gamma * R_gas * Point.Tt8 p).
Proof.
  destruct (main_point_defined 1 Main.Tt4 ltac:(lra) main_Tt4_in_range) as [p Hp].
  destruct (main_first_nozzles p Hp) as (m8 & m18 & E8 & G8 & C8 & L8 & _).
  destruct (main_first_primary_nozzle p Hp) as (R8 & V8 & S8).
  assert (HX : M_exit_claimed (Point.Pt8 p) Main.Ps0
               = M_ad_claimed (Point.Pt8 p) Main.Ps0).
  { unfold M_exit_claimed. cbv zeta.
    destruct (Rlt_dec (2 / (gamma - 1)
                       * (Rpower (Point.Pt8 p / Main.Ps0) ((gamma - 1) / gamma) - 1))
                      0) as [N|_]; [lra|].
    destruct (Rlt_dec (M_ad_claimed (Point.Pt8 p) Main.Ps0) 1) as [_|N];
      [reflexivity | contradiction]. }
  exists p, m8.
  split; [exact Hp|]. split; [exact R8|]. split; [exact L8|].
  split; [exact HX|]. split; [exact E8|]. split; [exact G8|].
  split; [exact C8|].
  split.
  { rewrite C8, HX. unfold fin. intros H. injection H as H. lra. }
  split; [exact V8|].
  rewrite HX.
  rewrite <- (Rmult_1_l (sqrt (gamma * R_gas * Point.Tt8 p))) at 2.
  apply Rmult_lt_compat_r; assumption.
Qed.

(** ** The sweep *)

(** C9.  An empty sequence of compressor ratios returns normally, and each
    of the fifteen lists of the result is empty. *)
Theorem empty_sweep (dm beta pi_fan Tt4 M0 Ts0 Ps0 M1 M2 : R) :
  exists res,
    compute_engine_performance dm beta pi_fan [] Tt4 M0 Ts0 Ps0 M1 M2 = Ok res /\
    T_list res = [] /\ T_fp_list res = [] /\ T_fs_list res = [] /\
    ST_list res = [] /\ TSFC_list res = [] /\
    Wprop_list res = [] /\ Wcin_list res = [] /\ Wth_list res = [] /\
    nprop_list res = [] /\ nth_list res = [] /\ nglob_list res = [] /\
    A1_list res = [] /\ A2_list res = [] /\ A8_list res = [] /\
    A18_list res = [].
Proof.
  exists empty_results. repeat split; reflexivity.
Qed.




Lemma passes_In (dm beta pi_fan Tt4 M0 Ts0 Ps0 M1 M2 : R)
      (ratios : list R) (ps : list Point.locals) (p : Point.locals) :
  passes dm beta pi_fan Tt4 M0 Ts0 Ps0 M1 M2 ratios ps -> In p ps ->
  exists pi_hpc,
    In pi_hpc ratios /\
    cycle_point dm beta pi_fan pi_hpc Tt4 M0 Ts0 Ps0 M1 M2 = Ok p.
Proof.
  induction 1 as [|r q l qs Hr _ IH]; intros Hin; [contradiction|].
  destruct Hin as [<-|Hin].
  - exists r. split; [now left | exact Hr].
  - destruct (IH Hin) as (r' & Hr' & E). exists r'. split; [now right | exact E].
Qed.

(** C10.  The secondary-flow outputs do not depend on the compressor
    ratio: in the result of one call all entries of [T_fs_list] are equal
    and all entries of [A18_list] are equal, and two calls that differ only
    in their ratio lists, of equal length, return the same [T_fs_list] and
    the same [A18_list]. *)
Theorem secondary_outputs_ignore_sweep
        (dm beta pi_fan Tt4 M0 Ts0 Ps0 M1 M2 : R)
        (pi_hpc_list pi_hpc_list' : list R) (res res' : results) :
  compute_engine_performance dm beta pi_fan pi_hpc_list Tt4 M0 Ts0 Ps0 M1 M2
  = Ok res ->
  compute_engine_performance dm beta pi_fan pi_hpc_list' Tt4 M0 Ts0 Ps0 M1 M2
  = Ok res' ->
  length pi_hpc_list = length pi_hpc_list' ->
  (forall x y, In x (T_fs_list res) -> In y (T_fs_list res) -> x = y) /\
  (forall x y, In x (A18_list res) -> In y (A18_list res) -> x = y) /\
  T_fs_list res = T_fs_list res' /\
  A18_list res = A18_list res'.
Proof.
  intros H H' Hlen.
  apply compute_Ok_inv in H, H'.
  destruct H as (ps & Hps & ->), H' as (ps' & Hps' & ->).
  assert (same : forall q q', In q ps -> In q' (ps ++ ps') ->
                   Point.T_fs q = Point.T_fs q' /\ Point.A18 q = Point.A18 q').
  { intros q q' Hq Hq'.
    destruct (passes_In _ _ _ _ _ _ _ _ _ _ _ _ Hps Hq) as (r & _ & E).
    apply in_app_or in Hq'. destruct Hq' as [Hq'|Hq'].
    - destruct (passes_In _ _ _ _ _ _ _ _ _ _ _ _ Hps Hq') as (r' & _ & E').
      exact (secondary_independent _ _ _ _ _ _ _ _ _ _ _ _ _ E E').
    - destruct (passes_In _ _ _ _ _ _ _ _ _ _ _ _ Hps' Hq') as (r' & _ & E').
      exact (secondary_independent _ _ _ _ _ _ _ _ _ _ _ _ _ E E'). }
  assert (Lps : length ps = length ps').
  { rewrite <- (Forall2_length Hps), <- (Forall2_length Hps'). exact Hlen. }
  unfold results_of; simpl. repeat split.
  - intros x y Hx Hy. apply in_map_iff in Hx, Hy.
    destruct Hx as (q & <- & Hq), Hy as (q' & <- & Hq').
    apply same; [exact Hq | apply in_or_app; now left].
  - intros x y Hx Hy. apply in_map_iff in Hx, Hy.
    destruct Hx as (q & <- & Hq), Hy as (q' & <- & Hq').
    apply same; [exact Hq | apply in_or_app; now left].
  - apply map_const_eq; [exact Lps|].
    intros q q' Hq Hq'. apply same; [exact Hq | apply in_or_app; now right].
  - apply map_const_eq; [exact Lps|].
    intros q q' Hq Hq'. apply same; [exact Hq | apply in_or_app; now right].
Qed.

Lemma main_sweep_returns (pi_hpc_list : list R) :
  Forall (fun pi_hpc => 1 <= pi_hpc <= 14) pi_hpc_list ->
  exists res,
    compute_engine_performance Main.dm Main.beta Main.pi_fan pi_hpc_list
      Main.Tt4 Main.M0 Main.Ts0 Main.Ps0 Main.M1 Main.M2 = Ok res.
Proof.
  intros H.
  destruct (passes_exist Main.dm Main.beta Main.pi_fan Main.Tt4
              Main.M0 Main.Ts0 Main.Ps0 Main.M1 Main.M2 pi_hpc_list)
    as [ps Hps].
  - eapply Forall_impl; [|exact H]. intros r Hr.
    apply main_point_defined; [exact Hr | apply main_Tt4_in_range].
  - exists (results_of ps). apply compute_passes. exact Hps.
Qed.

Lemma secondary_outputs_ignore_sweep_witness :
  exists res res',
    compute_engine_performance Main.dm Main.beta Main.pi_fan [1; 2]
      Main.Tt4 Main.M0 Main.Ts0 Main.Ps0 Main.M1 Main.M2 = Ok res /\
    compute_engine_performance Main.dm Main.beta Main.pi_fan [3; 14]
      Main.Tt4 Main.M0 Main.Ts0 Main.Ps0 Main.M1 Main.M2 = Ok res' /\
    T_fs_list res = T_fs_list res' /\ A18_list res = A18_list res'.
Proof.
  destruct (main_sweep_returns [1; 2]) as [res H];
    [repeat constructor; lra|].
  destruct (main_sweep_returns [3; 14]) as [res' H'];
    [repeat constructor; lra|].
  exists res, res'. split; [exact H|]. split; [exact H'|].
  apply (secondary_outputs_ignore_sweep _ _ _ _ _ _ _ _ _ _ _ _ _ H H' eq_refl).
Defined.

(** ** Efficiencies *)

(** C4.  At a sweep point whose kinetic power [Wcin] and thermal power
    [Wth] are not zero, the three efficiencies are real numbers and
    [nglob = nprop * nth] exactly; and when the three quotients are
    computed in binary64 without overflow or underflow, the rounded
    [nglob] and the rounded product of the rounded [nprop] and [nth]
    differ by at most 1e-9 relative to [nglob]. *)
Theorem efficiency_identity
        (dm beta pi_fan pi_hpc Tt4 M0 Ts0 Ps0 M1 M2 : R) (p : Point.locals)
        (wc : R) :
  cycle_point dm beta pi_fan pi_hpc Tt4 M0 Ts0 Ps0 M1 M2 = Ok p ->
  Point.Wcin p = Some wc -> wc <> 0 -> Point.Wth p <> 0 ->
  (exists a b c,
     Point.nprop p = Some a /\ Point.nth p = Some b /\ Point.nglob p = Some c /\
     c = a * b) /\
  (forall wp a b c prod,
     Point.Wprop p = Some wp ->
     binary64_efficiencies wp wc (Point.Wth p) a b c ->
     rounds_to (a * b) prod ->
     Rabs (c - prod) <= 1 / 10 ^ 9 * Rabs c).
Proof.
  intros Hp Hwc Hc Ht.
  destruct (point_thrust _ _ _ _ _ _ _ _ _ _ _ Hp) as (_ & ETfp & ETfs & ET & _).
  destruct (point_power _ _ _ _ _ _ _ _ _ _ _ Hp)
    as (EWp & EWc & Enp & Enth & Eng).
  split.
  - assert (Hwp : exists wp, Point.Wprop p = Some wp).
    { rewrite EWp, ET, ETfp, ETfs. rewrite EWc in Hwc.
      destruct (Point.V8 p) as [v8|], (Point.V18 p) as [v18|],
               (Point.V0 p) as [v0|];
        simpl in Hwc; destruct (Req_dec_T 2 0) as [E2|_];
        try lra; try discriminate.
      simpl. eexists; reflexivity. }
    destruct Hwp as [wp Hwp].
    rewrite Enp, Enth, Eng, Hwp, Hwc. unfold fin.
    rewrite !np_div_Some by assumption.
    do 3 eexists. repeat split. field. auto.
  - intros wp a b c prod _ Hr Hprod.
    exact (rounded_efficiencies_close _ _ _ _ _ _ _ Hc Ht Hr Hprod).
Qed.

Lemma efficiency_identity_witness :
  exists p a b c,
    cycle_point Main.dm Main.beta Main.pi_fan 1 Main.Tt4
                Main.M0 Main.Ts0 Main.Ps0 Main.M1 Main.M2 = Ok p /\
    Point.nprop p = Some a /\ Point.nth p = Some b /\ Point.nglob p = Some c /\
    c = a * b.
Proof.
  destruct (main_point_defined 1 Main.Tt4 ltac:(lra) main_Tt4_in_range) as [p Hp].
  destruct (main_first_point p Hp)
    as (v8 & v18 & v0 & t & wc & _ & _ & _ & _ & _ & _ & _ & _ & _ & _ & _
        & _ & _ & _ & _ & _ & _ & Hwc & Pwc & Pth).
  destruct (efficiency_identity _ _ _ _ _ _ _ _ _ _ p wc Hp Hwc
              ltac:(lra) ltac:(lra)) as [(a & b & c & H) _].
  exists p, a, b, c. split; [exact Hp | exact H].
Defined.

(** ** Fuel *)

Lemma point_fuel_air_ratio
      (dm beta pi_fan pi_hpc Tt4 M0 Ts0 Ps0 M1 M2 : R) (p : Point.locals) :
  cycle_point dm beta pi_fan pi_hpc Tt4 M0 Ts0 Ps0 M1 M2 = Ok p ->
  Point.f p = cp * (Tt4 - Point.Tt3 p) / (PCI - Tt4).
Proof.
  intros Hp.
  destruct (point_fuel _ _ _ _ _ _ _ _ _ _ _ Hp)
    as (_ & _ & _ & Hpci & Edmf & Hfp & Ef & _).
  rewrite Ef, Edmf. field. split; assumption.
Qed.

(** C6.  With every other input and the compressor ratio fixed, the
    compressor exit temperature [Tt3] is fixed, and when [Tt3 < PCI] the
    fuel-air ratio [f = cp * (Tt4 - Tt3) / (PCI - Tt4)] grows strictly with
    the combustor exit temperature [Tt4] as long as [Tt4 < PCI]. *)
Theorem fuel_air_ratio_increasing
        (dm beta pi_fan pi_hpc M0 Ts0 Ps0 M1 M2 : R)
        (Tt4 Tt4' : R) (p p' : Point.locals) :
  cycle_point dm beta pi_fan pi_hpc Tt4 M0 Ts0 Ps0 M1 M2 = Ok p ->
  cycle_point dm beta pi_fan pi_hpc Tt4' M0 Ts0 Ps0 M1 M2 = Ok p' ->
  Point.Tt3 p < PCI -> Tt4 < Tt4' -> Tt4' < PCI ->
  Point.Tt3 p' = Point.Tt3 p /\
  Point.f p = cp * (Tt4 - Point.Tt3 p) / (PCI - Tt4) /\
  Point.f p' = cp * (Tt4' - Point.Tt3 p) / (PCI - Tt4') /\
  Point.f p < Point.f p'.
Proof.
  intros Hp Hp' H3 Hlt Hpci.
  assert (E3 : Point.Tt3 p' = Point.Tt3 p).
  { destruct (point_compressor _ _ _ _ _ _ _ _ _ _ _ Hp)
      as (b13 & b3 & E1 & E2 & _ & ->).
    destruct (point_compressor _ _ _ _ _ _ _ _ _ _ _ Hp')
      as (b13' & b3' & E1' & E2' & _ & ->).
    rewrite E1 in E1'. rewrite E2 in E2'.
    apply Ok_inj in E1', E2'. subst. reflexivity. }
  pose proof (point_fuel_air_ratio _ _ _ _ _ _ _ _ _ _ _ Hp) as Ef.
  pose proof (point_fuel_air_ratio _ _ _ _ _ _ _ _ _ _ _ Hp') as Ef'.
  rewrite E3 in Ef'.
  split; [exact E3|]. split; [exact Ef|]. split; [exact Ef'|].
  rewrite Ef, Ef'. apply Rlt_0_minus.
  replace (cp * (Tt4' - Point.Tt3 p) / (PCI - Tt4')
           - cp * (Tt4 - Point.Tt3 p) / (PCI - Tt4))
    with (cp * ((Tt4' - Tt4) * (PCI - Point.Tt3 p))
          / ((PCI - Tt4') * (PCI - Tt4)))
    by (field; split; lra).
  apply Rdiv_lt_0_compat.
  - apply Rmult_lt_0_compat; [unfold cp; lra|].
    apply Rmult_lt_0_compat; lra.
  - apply Rmult_lt_0_compat; lra.
Qed.

Lemma main_Tt3_below_PCI (pi_hpc Tt4 : R) (p : Point.locals) :
  1 <= pi_hpc <= 14 ->
  cycle_point Main.dm Main.beta Main.pi_fan pi_hpc Tt4
              Main.M0 Main.Ts0 Main.Ps0 Main.M1 Main.M2 = Ok p ->
  359.74 <= Point.Tt3 p <= 799.
Proof.
  intros Hr Hp.
  destruct (point_fan _ _ _ _ _ _ _ _ _ _ _ Hp) as (_ & _ & _ & _ & E3).
  rewrite E3 by (unfold Main.pi_fan; lra).
  pose proof (main_Tt3 _ Hr). pose proof main_Tt13. lra.
Qed.

Lemma fuel_air_ratio_increasing_witness :
  exists p p',
    cycle_point Main.dm Main.beta Main.pi_fan 1 1300
                Main.M0 Main.Ts0 Main.Ps0 Main.M1 Main.M2 = Ok p /\
    cycle_point Main.dm Main.beta Main.pi_fan 1 1400
                Main.M0 Main.Ts0 Main.Ps0 Main.M1 Main.M2 = Ok p' /\
    Point.f p < Point.f p'.
Proof.
  destruct (main_point_defined 1 1300 ltac:(lra) ltac:(unfold PCI; lra))
    as [p Hp].
  destruct (main_point_defined 1 1400 ltac:(lra) ltac:(unfold PCI; lra))
    as [p' Hp'].
  pose proof (main_Tt3_below_PCI 1 1300 p ltac:(lra) Hp) as B3.
  exists p, p'. split; [exact Hp|]. split; [exact Hp'|].
  apply (fuel_air_ratio_increasing _ _ _ _ _ _ _ _ _ 1300 1400 p p' Hp Hp');
    unfold PCI; lra.
Defined.

(** The sweep point of [main.py] at [pi_hpc = 1] with the combustor exit
    temperature lowered to 300 K, below the compressor exit temperature. *)
Lemma cold_point_defined :
  exists p, cycle_point Main.dm Main.beta Main.pi_fan 1 300
                        Main.M0 Main.Ts0 Main.Ps0 Main.M1 Main.M2 = Ok p.
Proof.
  pose proof main_Tt13 as H13.
  assert (E3 : Tt3_of Main.pi_fan 1 Main.M0 Main.Ts0
               = Tt13_of Main.pi_fan Main.M0 Main.Ts0)
    by (unfold Tt3_of; rewrite Rpower_one_base; ring).
  assert (Hf : 0.998 <= 1 + f_of Main.pi_fan 1 300 Main.M0 Main.Ts0 <= 1)
    by (unfold f_of; rewrite E3; unfold cp, PCI; lra).
  assert (H42 : Tt42_of Main.pi_fan 1 300 Main.M0 Main.Ts0 = 300).
  { unfold Tt42_of. rewrite E3. unfold Rdiv. ring. }
  assert (H5 : 40 <= Tt5_of Main.beta Main.pi_fan 1 300 Main.M0 Main.Ts0).
  { unfold Tt5_of. rewrite H42, main_Tt2.
    pose proof (div_ge_bound
                  ((1 + Main.beta)
                   * (Tt13_of Main.pi_fan Main.M0 Main.Ts0 - 321.203925))
                  0.998 (1 + f_of Main.pi_fan 1 300 Main.M0 Main.Ts0)
                  ltac:(unfold Main.beta; lra) ltac:(lra)) as Q.
    unfold Main.beta in *. lra. }
  apply cycle_point_defined.
  - unfold Main.dm; lra.
  - unfold Main.beta; lra.
  - unfold Main.pi_fan; lra.
  - lra.
  - lra.
  - unfold PCI; lra.
  - unfold Main.Ps0; lra.
  - lra.
  - rewrite H42. lra.
  - rewrite H42. apply Rdiv_lt_0_compat; lra.
Qed.

(** C5, as stated, fails: the evaluator has no validation.  With
    [Tt4 = 300 K] below [Tt3] the call returns normally, and the fuel mass
    flow is an ordinary negative number that reaches the output through
    [Wth = dm_f * PCI]. *)
Lemma cold_combustor_returns_silently :
  exists p res,
    cycle_point Main.dm Main.beta Main.pi_fan 1 300
                Main.M0 Main.Ts0 Main.Ps0 Main.M1 Main.M2 = Ok p /\
    compute_engine_performance Main.dm Main.beta Main.pi_fan [1] 300
                               Main.M0 Main.Ts0 Main.Ps0 Main.M1 Main.M2
    = Ok res /\
    300 < Point.Tt3 p /\ Point.dm_f p < 0 /\
    Wth_list res = [Point.dm_f p * PCI].
Proof.
  destruct cold_point_defined as [p Hp].
  exists p, (results_of [p]).
  split; [exact Hp|].
  split; [apply compute_passes; repeat constructor; exact Hp|].
  pose proof (main_Tt3_below_PCI 1 300 p ltac:(lra) Hp) as B3.
  destruct (point_fuel _ _ _ _ _ _ _ _ _ _ _ Hp)
    as (_ & Efp & _ & _ & Edmf & _ & _ & Ewth).
  split; [lra|]. split.
  - rewrite Edmf, Efp. unfold Main.dm, Main.beta, cp, PCI. lra.
  - simpl. rewrite Ewth. reflexivity.
Qed.

(** C5, amended.  At a sweep point that evaluates with a positive primary
    flow and [Tt4 < PCI], a combustor exit temperature below the compressor
    exit temperature gives a negative fuel mass flow, a negative fuel-air
    ratio and a negative thermal power, as ordinary numbers: no error is
    raised and nothing is flagged. *)
Theorem cold_combustor_negative_fuel
        (dm beta pi_fan pi_hpc Tt4 M0 Ts0 Ps0 M1 M2 : R) (p : Point.locals) :
  cycle_point dm beta pi_fan pi_hpc Tt4 M0 Ts0 Ps0 M1 M2 = Ok p ->
  Tt4 < Point.Tt3 p -> 0 < Point.dm_fp p -> Tt4 < PCI ->
  Point.dm_f p = Point.dm_fp p * cp * (Tt4 - Point.Tt3 p) / (PCI - Tt4) /\
  Point.dm_f p < 0 /\ Point.f p < 0 /\ Point.Wth p < 0.
Proof.
  intros Hp H43 Hfp Hpci.
  destruct (point_fuel _ _ _ _ _ _ _ _ _ _ _ Hp)
    as (_ & _ & _ & _ & Edmf & _ & Ef & Ewth).
  assert (P : 0 < Point.dm_fp p * cp * (Point.Tt3 p - Tt4) / (PCI - Tt4)).
  { apply Rdiv_lt_0_compat; [|lra].
    repeat apply Rmult_lt_0_compat; unfold cp; lra. }
  assert (N : Point.dm_f p < 0).
  { rewrite Edmf.
    replace (Point.dm_fp p * cp * (Tt4 - Point.Tt3 p) / (PCI - Tt4))
      with (- (Point.dm_fp p * cp * (Point.Tt3 p - Tt4) / (PCI - Tt4)))
      by (field; lra).
    lra. }
  split; [exact Edmf|]. split; [exact N|]. split.
  - assert (Q : 0 < - Point.dm_f p / Point.dm_fp p)
      by (apply Rdiv_lt_0_compat; lra).
    rewrite Ef.
    replace (Point.dm_f p / Point.dm_fp p)
      with (- (- Point.dm_f p / Point.dm_fp p)) by (field; lra).
    lra.
  - rewrite Ewth. unfold PCI. lra.
Qed.

Lemma cold_combustor_negative_fuel_witness :
  exists p,
    cycle_point Main.dm Main.beta Main.pi_fan 1 300
                Main.M0 Main.Ts0 Main.Ps0 Main.M1 Main.M2 = Ok p /\
    Point.dm_f p < 0 /\ Point.f p < 0 /\ Point.Wth p < 0.
Proof.
  destruct cold_point_defined as [p Hp].
  pose proof (main_Tt3_below_PCI 1 300 p ltac:(lra) Hp) as B3.
  destruct (point_fuel _ _ _ _ _ _ _ _ _ _ _ Hp) as (_ & Efp & _).
  exists p. split; [exact Hp|].
  apply (cold_combustor_negative_fuel _ _ _ _ _ _ _ _ _ _ p Hp).
  - lra.
  - rewrite Efp. unfold Main.dm, Main.beta. lra.
  - unfold PCI. lra.
Defined.

(** ** Thrust-specific fuel consumption *)

(** What the program stores under [TSFC]: the fuel flow divided by the
    specific thrust [ST = T / dm], that is [dm] times the fuel flow per
    unit thrust. *)
Lemma point_TSFC
      (dm beta pi_fan pi_hpc Tt4 M0 Ts0 Ps0 M1 M2 : R) (p : Point.locals)
      (t : R) :
  cycle_point dm beta pi_fan pi_hpc Tt4 M0 Ts0 Ps0 M1 M2 = Ok p ->
  Point.T p = Some t -> t <> 0 ->
  Point.TSFC p = Some (dm * (Point.dm_f p / t)).
Proof.
  intros Hp Ht Nt.
  destruct (point_fuel _ _ _ _ _ _ _ _ _ _ _ Hp) as (Hb & Efp & _ & _ & _ & Hfp & _).
  assert (Hdm : dm <> 0).
  { intros E. apply Hfp. rewrite Efp, E. unfold Rdiv. ring. }
  destruct (point_thrust _ _ _ _ _ _ _ _ _ _ _ Hp) as (_ & _ & _ & _ & EST & ETSFC).
  rewrite ETSFC, EST, Ht. unfold fin.
  rewrite np_div_Some by assumption.
  rewrite np_div_Some.
  - f_equal. field. split; assumption.
  - unfold Rdiv. apply Rmult_integral_contrapositive_currified;
      [assumption | now apply Rinv_neq_0_compat].
Qed.

(** C7, at the first sweep point of [main.py].  The net thrust and the
    fuel flow are positive numbers, and the value returned as TSFC is 210
    times the fuel flow per unit thrust, not the fuel flow per unit thrust
    of the claim. *)
Theorem TSFC_is_not_fuel_flow_per_thrust :
  exists p t,
    cycle_point Main.dm Main.beta Main.pi_fan 1 Main.Tt4
                Main.M0 Main.Ts0 Main.Ps0 Main.M1 Main.M2 = Ok p /\
    Point.T p = Some t /\ 0 < t /\ 0 < Point.dm_f p /\
    Point.TSFC p = Some (210 * (Point.dm_f p / t)) /\
    Point.TSFC p <> Some (Point.dm_f p / t).
Proof.
  destruct (main_point_defined 1 Main.Tt4 ltac:(lra) main_Tt4_in_range) as [p Hp].
  destruct (main_first_point p Hp)
    as (v8 & v18 & v0 & t & wc & _ & _ & _ & _ & Hdmf & _ & _ & _ & _ & _ & _
        & _ & _ & _ & _ & Ht & Pt & _).
  pose proof (point_TSFC _ _ _ _ _ _ _ _ _ _ p t Hp Ht ltac:(lra)) as E.
  unfold Main.dm in E at 1.
  assert (Q : 0 < Point.dm_f p / t) by (apply Rdiv_lt_0_compat; assumption).
  exists p, t. repeat split; try assumption.
  rewrite E. intros H. apply (f_equal (fun o => match o with Some x => x | None => 0 end)) in H.
  lra.
Qed.

(** ** Inlet *)

Lemma main_inlet_pressure_rise_tight :
  1.603818 <= Rpower (1 + (gamma - 1) / 2 * Main.M0 ^ 2) (gamma / (gamma - 1))
  <= 1.603821.
Proof.
  rewrite exponent_P.
  replace (1 + (gamma - 1) / 2 * Main.M0 ^ 2) with 1.1445
    by (unfold gamma, Main.M0; lra).
  rewrite Rpower_7_2 by lra.
  assert (1.069813 <= sqrt 1.1445) by (apply sqrt_lower; lra).
  assert (sqrt 1.1445 <= 1.069814) by (apply sqrt_upper; lra).
  lra.
Qed.

Lemma main_inlet (pi_hpc Tt4 : R) (p : Point.locals) :
  cycle_point Main.dm Main.beta Main.pi_fan pi_hpc Tt4
              Main.M0 Main.Ts0 Main.Ps0 Main.M1 Main.M2 = Ok p ->
  Point.Tt2 p = 321.203925 /\ 144144.7 <= Point.Pt2 p <= 144145.1.
Proof.
  intros Hp.
  destruct (point_inlet _ _ _ _ _ _ _ _ _ _ _ Hp) as (E2 & EP2).
  fold (Tt2_of Main.M0 Main.Ts0) in E2. rewrite main_Tt2 in E2.
  split; [exact E2|].
  rewrite EP2. pose proof main_inlet_pressure_rise_tight.
  unfold Main.Ps0. lra.
Qed.

(** C8, as stated, fails: in the scenario of the claim the inlet total
    temperature is 28 K above 292.89 K and the inlet total pressure is
    more than 4558 Pa above 139586 Pa. *)
Lemma inlet_scenario_values_off :
  exists p,
    cycle_point 210 5 1.5 1 1300 0.85 280.65 89876 0.8 0.5 = Ok p /\
    28 < Rabs (Point.Tt2 p - 292.89) /\
    4558 < Rabs (Point.Pt2 p - 139586).
Proof.
  destruct (main_point_defined 1 Main.Tt4 ltac:(lra) main_Tt4_in_range) as [p Hp].
  destruct (main_inlet _ _ _ Hp) as (E2 & B2).
  exists p. split; [exact Hp|].
  rewrite !Rabs_pos_eq by lra. lra.
Qed.

(** C8, amended.  With [dm = 210], [beta = 5], [pi_fan = 1.5],
    [Tt4 = 1300], [M0 = 0.85], [Ts0 = 280.65], [Ps0 = 89876], [M1 = 0.8],
    [M2 = 0.5], the point at [pi_hpc = 1] has the inlet total conditions of
    the isentropic relations, [Tt2 = 321.203925 K] (about 321.20 K) and
    [Pt2] within 1 Pa of 144145 Pa. *)
Theorem inlet_scenario (p : Point.locals) :
  cycle_point 210 5 1.5 1 1300 0.85 280.65 89876 0.8 0.5 = Ok p ->
  Point.Tt2 p = 280.65 * (1 + (gamma - 1) / 2 * 0.85 ^ 2) /\
  Point.Pt2 p
  = 89876 * Rpower (1 + (gamma - 1) / 2 * 0.85 ^ 2) (gamma / (gamma - 1)) /\
  Rabs (Point.Tt2 p - 321.20) <= 0.01 /\
  Rabs (Point.Pt2 p - 144145) <= 1.
Proof.
  intros Hp.
  destruct (point_inlet _ _ _ _ _ _ _ _ _ _ _ Hp) as (E2 & EP2).
  destruct (main_inlet 1 Main.Tt4 p Hp) as (V2 & B2).
  split; [exact E2|]. split; [exact EP2|].
  split; apply Rabs_le; lra.
Qed.

Lemma inlet_scenario_witness :
  exists p,
    cycle_point 210 5 1.5 1 1300 0.85 280.65 89876 0.8 0.5 = Ok p /\
    Rabs (Point.Tt2 p - 321.20) <= 0.01 /\
    Rabs (Point.Pt2 p - 144145) <= 1.
Proof.
  destruct (main_point_defined 1 Main.Tt4 ltac:(lra) main_Tt4_in_range) as [p Hp].
  exists p. split; [exact Hp|].
  apply (inlet_scenario p Hp).
Defined.

(** ** Adiabatic exit Mach number *)

(** C1, at the first sweep point of [main.py].  The program computes
    [sqrt (2/(gamma-1) * x - 1)] with the 1 subtracted after the
    multiplication.  Both adiabatic Mach numbers it obtains are at least 2,
    while the formula of the claim gives less than 1 for the primary nozzle
    and less than 2 for the secondary nozzle (the squares differ by 4); the
    primary nozzle, unchoked by the formula of the claim, is reported at
    Mach 1. *)
Theorem adiabatic_mach_subtracts_after_scaling :
  exists p m8 m18,
    cycle_point Main.dm Main.beta Main.pi_fan 1 Main.Tt4
                Main.M0 Main.Ts0 Main.Ps0 Main.M1 Main.M2 = Ok p /\
    Point.M8_ad p = Some m8 /\ 2 <= m8 /\
    M_ad_claimed (Point.Pt8 p) Main.Ps0 < 1 /\
    m8 ^ 2 = M_ad_claimed (Point.Pt8 p) Main.Ps0 ^ 2 + 4 /\
    Point.M8 p = fin 1 /\
    Point.M18_ad p = Some m18 /\ 2 <= m18 /\
    M_ad_claimed (Point.Pt18 p) Main.Ps0 < 2 /\
    m18 ^ 2 = M_ad_claimed (Point.Pt18 p) Main.Ps0 ^ 2 + 4.
Proof.
  destruct (main_point_defined 1 Main.Tt4 ltac:(lra) main_Tt4_in_range) as [p Hp].
  destruct (main_first_nozzles p Hp)
    as (m8 & m18 & E8 & G8 & C8 & L8 & Q8 & E18 & G18 & L18 & Q18).
  exists p, m8, m18. repeat split; assumption.
Qed.

(** * Further properties of the evaluator *)

(** ** The loop as a whole *)

Lemma results_of_app (ps1 ps2 : list Point.locals) :
  results_of (ps1 ++ ps2) = results_app (results_of ps1) (results_of ps2).
Proof.
  unfold results_of, results_app; simpl. now rewrite !map_app.
Qed.

(** X2.  The passes share nothing: the call over two ratio lists put end
    to end returns, list by list, the entries of the call over the first
    followed by the entries of the call over the second. *)
Theorem sweep_of_concatenation
        (dm beta pi_fan Tt4 M0 Ts0 Ps0 M1 M2 : R)
        (ratios1 ratios2 : list R) (res1 res2 : results) :
  compute_engine_performance dm beta pi_fan ratios1 Tt4 M0 Ts0 Ps0 M1 M2
  = Ok res1 ->
  compute_engine_performance dm beta pi_fan ratios2 Tt4 M0 Ts0 Ps0 M1 M2
  = Ok res2 ->
  compute_engine_performance dm beta pi_fan (ratios1 ++ ratios2)
                             Tt4 M0 Ts0 Ps0 M1 M2
  = Ok (results_app res1 res2).
Proof.
  intros H1 H2. apply compute_Ok_inv in H1, H2.
  destruct H1 as (ps1 & Hps1 & ->), H2 as (ps2 & Hps2 & ->).
  rewrite <- results_of_app. apply compute_passes.
  unfold passes. apply Forall2_app; assumption.
Qed.

Lemma sweep_of_concatenation_witness :
  exists res1 res2,
    compute_engine_performance Main.dm Main.beta Main.pi_fan [1; 2]
      Main.Tt4 Main.M0 Main.Ts0 Main.Ps0 Main.M1 Main.M2 = Ok res1 /\
    compute_engine_performance Main.dm Main.beta Main.pi_fan [3; 14]
      Main.Tt4 Main.M0 Main.Ts0 Main.Ps0 Main.M1 Main.M2 = Ok res2 /\
    compute_engine_performance Main.dm Main.beta Main.pi_fan ([1; 2] ++ [3; 14])
      Main.Tt4 Main.M0 Main.Ts0 Main.Ps0 Main.M1 Main.M2
    = Ok (results_app res1 res2).
Proof.
  destruct (main_sweep_returns [1; 2]) as [res1 H1];
    [repeat constructor; lra|].
  destruct (main_sweep_returns [3; 14]) as [res2 H2];
    [repeat constructor; lra|].
  exists res1, res2. split; [exact H1|]. split; [exact H2|].
  exact (sweep_of_concatenation _ _ _ _ _ _ _ _ _ _ _ _ _ H1 H2).
Defined.

Lemma passes_nth (dm beta pi_fan Tt4 M0 Ts0 Ps0 M1 M2 : R)
      (ratios : list R) (ps : list Point.locals) (i : nat) (pi_hpc : R) :
  passes dm beta pi_fan Tt4 M0 Ts0 Ps0 M1 M2 ratios ps ->
  nth_error ratios i = Some pi_hpc ->
  exists p,
    nth_error ps i = Some p /\
    cycle_point dm beta pi_fan pi_hpc Tt4 M0 Ts0 Ps0 M1 M2 = Ok p.
Proof.
  intros H. revert i.
  induction H as [|r q l qs Hr _ IH]; intros [|i] Hi; simpl in Hi;
    try discriminate.
  - injection Hi as <-. exists q. split; [reflexivity | exact Hr].
  - apply IH. exact Hi.
Qed.

Lemma results_of_entries (ps : list Point.locals) (i : nat) (p : Point.locals) :
  nth_error ps i = Some p -> entries_at (results_of ps) i p.
Proof.
  intros H. unfold entries_at, results_of; simpl.
  repeat split; apply map_nth_error; exact H.
Qed.

(** X24.  An entry depends on its own compressor ratio only: when two
    calls with the same engine and flight inputs both return, and the
    ratio at index [i] of the first list is the ratio at index [j] of the
    second, the fifteen entries of index [i] of the first result are the
    fifteen entries of index [j] of the second, namely the values of the
    pass over that ratio.  Nothing is carried from one pass to the next,
    whatever the other ratios and their order. *)
Theorem entries_depend_on_own_ratio
        (dm beta pi_fan Tt4 M0 Ts0 Ps0 M1 M2 : R)
        (ratios1 ratios2 : list R) (res1 res2 : results)
        (i j : nat) (pi_hpc : R) :
  compute_engine_performance dm beta pi_fan ratios1 Tt4 M0 Ts0 Ps0 M1 M2
  = Ok res1 ->
  compute_engine_performance dm beta pi_fan ratios2 Tt4 M0 Ts0 Ps0 M1 M2
  = Ok res2 ->
  nth_error ratios1 i = Some pi_hpc ->
  nth_error ratios2 j = Some pi_hpc ->
  exists p,
    cycle_point dm beta pi_fan pi_hpc Tt4 M0 Ts0 Ps0 M1 M2 = Ok p /\
    entries_at res1 i p /\ entries_at res2 j p.
Proof.
  intros H1 H2 Hi Hj. apply compute_Ok_inv in H1, H2.
  destruct H1 as (ps1 & Hps1 & ->), H2 as (ps2 & Hps2 & ->).
  destruct (passes_nth _ _ _ _ _ _ _ _ _ _ _ _ _ Hps1 Hi) as (p & Ei & Hp).
  destruct (passes_nth _ _ _ _ _ _ _ _ _ _ _ _ _ Hps2 Hj) as (q & Ej & Hq).
  rewrite Hp in Hq. apply Ok_inj in Hq. subst q.
  exists p. split; [exact Hp|].
  split; apply results_of_entries; assumption.
Qed.

Lemma entries_depend_on_own_ratio_witness :
  exists res1 res2 p,
    compute_engine_performance Main.dm Main.beta Main.pi_fan [1; 2]
      Main.Tt4 Main.M0 Main.Ts0 Main.Ps0 Main.M1 Main.M2 = Ok res1 /\
    compute_engine_performance Main.dm Main.beta Main.pi_fan [14; 3; 2]
      Main.Tt4 Main.M0 Main.Ts0 Main.Ps0 Main.M1 Main.M2 = Ok res2 /\
    cycle_point Main.dm Main.beta Main.pi_fan 2 Main.Tt4
                Main.M0 Main.Ts0 Main.Ps0 Main.M1 Main.M2 = Ok p /\
    entries_at res1 1 p /\ entries_at res2 2 p.
Proof.
  destruct (main_sweep_returns [1; 2]) as [res1 H1];
    [repeat constructor; lra|].
  destruct (main_sweep_returns [14; 3; 2]) as [res2 H2];
    [repeat constructor; lra|].
  destruct (entries_depend_on_own_ratio _ _ _ _ _ _ _ _ _ _ _ _ _ 1%nat 2%nat 2
              H1 H2 eq_refl eq_refl) as (p & Hp & E1 & E2).
  exists res1, res2, p.
  split; [exact H1|]. split; [exact H2|]. split; [exact Hp|].
  split; [exact E1 | exact E2].
Defined.

(** ** Invariants of one pass *)

Lemma point_exit_mach
      (dm beta pi_fan pi_hpc Tt4 M0 Ts0 Ps0 M1 M2 : R) (p : Point.locals) :
  cycle_point dm beta pi_fan pi_hpc Tt4 M0 Ts0 Ps0 M1 M2 = Ok p ->
  exists m8 m18,
    Point.M8 p = Some m8 /\ 0 <= m8 <= 1 /\
    Point.M18 p = Some m18 /\ 0 <= m18 <= 1.
Proof.
  intros Hp.
  destruct (point_nozzles _ _ _ _ _ _ _ _ _ _ _ Hp)
    as (_ & (_ & _ & b8 & _ & E8) & EM8 & _ & (_ & _ & b18 & _ & E18) & EM18 & _).
  destruct (exit_mach_range (2 / (gamma - 1) * b8 - 1)) as (m8 & H8 & B8).
  destruct (exit_mach_range (2 / (gamma - 1) * b18 - 1)) as (m18 & H18 & B18).
  exists m8, m18.
  rewrite EM8, E8, EM18, E18. repeat split; assumption || apply B8 || apply B18.
Qed.

(** X4.  Whatever the pressures, the exit Mach numbers that a pass reports
    are real numbers between 0 and 1: never [nan], never supersonic. *)
Theorem exit_mach_in_unit_interval
        (dm beta pi_fan pi_hpc Tt4 M0 Ts0 Ps0 M1 M2 : R) (p : Point.locals) :
  cycle_point dm beta pi_fan pi_hpc Tt4 M0 Ts0 Ps0 M1 M2 = Ok p ->
  exists m8 m18,
    Point.M8 p = Some m8 /\ 0 <= m8 <= 1 /\
    Point.M18 p = Some m18 /\ 0 <= m18 <= 1.
Proof.
  intros Hp.
  destruct (point_nozzles _ _ _ _ _ _ _ _ _ _ _ Hp)
    as (_ & (_ & _ & b8 & _ & E8) & EM8 & _ & (_ & _ & b18 & _ & E18) & EM18 & _).
  rewrite EM8, E8, EM18, E18.
  destruct (exit_mach_range (2 / (gamma - 1) * b8 - 1)) as (m8 & -> & B8).
  destruct (exit_mach_range (2 / (gamma - 1) * b18 - 1)) as (m18 & -> & B18).
  exists m8, m18. repeat split; apply B8 || apply B18.
Qed.

Lemma exit_mach_in_unit_interval_witness :
  exists p m8 m18,
    cycle_point Main.dm Main.beta Main.pi_fan 2 Main.Tt4
                Main.M0 Main.Ts0 Main.Ps0 Main.M1 Main.M2 = Ok p /\
    Point.M8 p = Some m8 /\ 0 <= m8 <= 1 /\
    Point.M18 p = Some m18 /\ 0 <= m18 <= 1.
Proof.
  destruct (main_point_defined 2 Main.Tt4 ltac:(lra) main_Tt4_in_range) as [p Hp].
  destruct (exit_mach_in_unit_interval _ _ _ _ _ _ _ _ _ _ p Hp)
    as (m8 & m18 & H).
  exists p, m8, m18. split; [exact Hp | exact H].
Defined.

(** X5.  The exit velocity of a nozzle is [nan] exactly when its total
    temperature is negative; otherwise it is a real number between 0 and
    the sonic velocity [sqrt (gamma * R * Tt)]. *)
Theorem exit_velocity_at_most_sonic
        (dm beta pi_fan pi_hpc Tt4 M0 Ts0 Ps0 M1 M2 : R) (p : Point.locals) :
  cycle_point dm beta pi_fan pi_hpc Tt4 M0 Ts0 Ps0 M1 M2 = Ok p ->
  (Point.Tt8 p < 0 -> Point.V8 p = None) /\
  (0 <= Point.Tt8 p ->
   exists v8, Point.V8 p = Some v8 /\
              0 <= v8 <= sqrt (gamma * R_gas * Point.Tt8 p)) /\
  (Point.Tt18 p < 0 -> Point.V18 p = None) /\
  (0 <= Point.Tt18 p ->
   exists v18, Point.V18 p = Some v18 /\
               0 <= v18 <= sqrt (gamma * R_gas * Point.Tt18 p)).
Proof.
  intros Hp.
  destruct (point_exit_mach _ _ _ _ _ _ _ _ _ _ p Hp)
    as (m8 & m18 & H8 & B8 & H18 & B18).
  destruct (point_nozzles _ _ _ _ _ _ _ _ _ _ _ Hp)
    as (_ & _ & _ & EV8 & _ & _ & EV18).
  rewrite H8 in EV8. rewrite H18 in EV18.
  assert (G : 0 < gamma * R_gas) by (unfold gamma, R_gas; lra).
  assert (below : forall m t, 0 <= m <= 1 -> 0 <= m * sqrt t <= sqrt t).
  { intros m t Hm. pose proof (sqrt_pos t) as St. split.
    - apply Rmult_le_pos; lra.
    - rewrite <- (Rmult_1_l (sqrt t)) at 2. apply Rmult_le_compat_r; lra. }
  repeat split.
  - intros N. rewrite EV8, np_sqrt_None; [reflexivity|].
    replace 0 with (gamma * R_gas * 0) by ring.
    apply Rmult_lt_compat_l; assumption.
  - intros N. rewrite EV8, np_sqrt_Some by (apply Rmult_le_pos; lra).
    eexists. split; [reflexivity | apply below; exact B8].
  - intros N. rewrite EV18, np_sqrt_None; [reflexivity|].
    replace 0 with (gamma * R_gas * 0) by ring.
    apply Rmult_lt_compat_l; assumption.
  - intros N. rewrite EV18, np_sqrt_Some by (apply Rmult_le_pos; lra).
    eexists. split; [reflexivity | apply below; exact B18].
Qed.

Lemma exit_velocity_at_most_sonic_witness :
  exists p v18,
    cycle_point Main.dm Main.beta Main.pi_fan 1 Main.Tt4
                Main.M0 Main.Ts0 Main.Ps0 Main.M1 Main.M2 = Ok p /\
    Point.V18 p = Some v18 /\
    0 <= v18 <= sqrt (gamma * R_gas * Point.Tt18 p).
Proof.
  destruct (main_point_defined 1 Main.Tt4 ltac:(lra) main_Tt4_in_range) as [p Hp].
  destruct (exit_velocity_at_most_sonic _ _ _ _ _ _ _ _ _ _ p Hp)
    as (_ & _ & _ & H).
  destruct (point_nozzles _ _ _ _ _ _ _ _ _ _ _ Hp)
    as (_ & _ & _ & _ & (E18 & _) & _).
  destruct (main_first_point p Hp)
    as (_ & _ & _ & _ & _ & _ & _ & B13 & _).
  destruct H as (v18 & E & B); [rewrite E18; lra|].
  exists p, v18. split; [exact Hp|]. split; [exact E | exact B].
Defined.

(** The test [M_ad < 1] fails as soon as the pressure ratio of the nozzle
    is at least 0.0405: its power is then at least 0.4, and the radicand
    at least 1. *)
Lemma clamp_sonic (r b : R) :
  0.0405 <= r ->
  py_pow r ((gamma - 1) / gamma) = Ok b ->
  (if np_lt (np_sqrt ((2 / (gamma - 1)) * b - 1)) 1
   then np_sqrt ((2 / (gamma - 1)) * b - 1) else fin 1) = fin 1.
Proof.
  intros Hr Hb. rewrite py_pow_pos in Hb by lra. apply Ok_inj in Hb.
  assert (B : 0.4 <= b).
  { subst b. rewrite exponent_T. apply Rpower_2_7_lower; try lra.
    assert (0.0405 * 0.0405 <= r * r) by (apply Rmult_le_compat; lra).
    lra. }
  assert (S : 1 <= sqrt (2 / (gamma - 1) * b - 1))
    by (apply sqrt_lower; unfold gamma; lra).
  rewrite np_sqrt_Some by (unfold gamma; lra). simpl.
  destruct (Rlt_dec (sqrt (2 / (gamma - 1) * b - 1)) 1); [lra | reflexivity].
Qed.

(** An adiabatic solution of the program that is at least 2 comes from a
    pressure ratio that is at least 1. *)
Lemma adiabatic_at_least_2 (r b m : R) :
  py_pow r ((gamma - 1) / gamma) = Ok b ->
  np_sqrt ((2 / (gamma - 1)) * b - 1) = Some m -> 2 <= m -> 1 <= r.
Proof.
  intros Hb Hm G. unfold np_sqrt in Hm.
  destruct (Rlt_dec (2 / (gamma - 1) * b - 1) 0) as [N|N]; [discriminate|].
  injection Hm as Hm.
  assert (Q : m ^ 2 = 2 / (gamma - 1) * b - 1)
    by (rewrite <- Hm; apply pow2_sqrt; lra).
  assert (4 <= m ^ 2) by (simpl; nra).
  assert (B : 1 <= b) by (unfold gamma in *; lra).
  assert (He : 0 < (gamma - 1) / gamma) by (rewrite exponent_T; lra).
  destruct (py_pow_inv _ _ _ He Hb) as [(Hr & Eb & _) | (_ & Z)]; [|lra].
  destruct (Rle_or_lt 1 r) as [L|L]; [exact L | exfalso].
  assert (Rpower r ((gamma - 1) / gamma) < 1); [|lra].
  assert (N0 : ln r < 0) by (rewrite <- ln_1; apply ln_increasing; lra).
  assert (X : exp ((gamma - 1) / gamma * ln r) < exp 0)
    by (apply exp_increasing; nra).
  rewrite exp_0 in X. exact X.
Qed.

(** X25.  The unchoked branch is out of reach of every ordinary pressure:
    a nozzle whose reservoir pressure is at least 4.05 % of the ambient
    pressure (in particular, one whose reservoir pressure is not below the
    ambient pressure) is reported at Mach 1 exactly, with the exit velocity
    [sqrt (gamma * R * Tt)] of its total temperature, for the primary and
    for the secondary nozzle alike. *)
Theorem nozzle_reported_sonic
        (dm beta pi_fan pi_hpc Tt4 M0 Ts0 Ps0 M1 M2 : R) (p : Point.locals) :
  cycle_point dm beta pi_fan pi_hpc Tt4 M0 Ts0 Ps0 M1 M2 = Ok p ->
  (0.0405 <= Point.Pt8 p / Ps0 ->
   Point.M8 p = fin 1 /\
   Point.V8 p = np_sqrt (gamma * R_gas * Point.Tt8 p)) /\
  (0.0405 <= Point.Pt18 p / Ps0 ->
   Point.M18 p = fin 1 /\
   Point.V18 p = np_sqrt (gamma * R_gas * Point.Tt18 p)).
Proof.
  intros Hp.
  destruct (point_nozzles _ _ _ _ _ _ _ _ _ _ _ Hp)
    as (_ & (_ & _ & b8 & Hb8 & E8) & EM8 & EV8
        & (_ & _ & b18 & Hb18 & E18) & EM18 & EV18).
  split; intros Hr.
  - assert (M : Point.M8 p = fin 1)
      by (rewrite EM8, E8; exact (clamp_sonic _ _ Hr Hb8)).
    split; [exact M|]. rewrite EV8, M. apply np_mul_one_l.
  - assert (M : Point.M18 p = fin 1)
      by (rewrite EM18, E18; exact (clamp_sonic _ _ Hr Hb18)).
    split; [exact M|]. rewrite EV18, M. apply np_mul_one_l.
Qed.

Lemma nozzle_reported_sonic_witness :
  exists p,
    cycle_point Main.dm Main.beta Main.pi_fan 1 Main.Tt4
                Main.M0 Main.Ts0 Main.Ps0 Main.M1 Main.M2 = Ok p /\
    0.0405 <= Point.Pt8 p / Main.Ps0 /\
    0.0405 <= Point.Pt18 p / Main.Ps0 /\
    Point.M8 p = fin 1 /\
    Point.V8 p = np_sqrt (gamma * R_gas * Point.Tt8 p) /\
    Point.M18 p = fin 1 /\
    Point.V18 p = np_sqrt (gamma * R_gas * Point.Tt18 p).
Proof.
  destruct (main_point_defined 1 Main.Tt4 ltac:(lra) main_Tt4_in_range) as [p Hp].
  destruct (main_first_nozzles p Hp)
    as (m8 & m18 & M8 & G8 & _ & _ & _ & M18 & G18 & _).
  destruct (point_nozzles _ _ _ _ _ _ _ _ _ _ _ Hp)
    as (_ & (_ & _ & b8 & Hb8 & E8) & _ & _ & (_ & _ & b18 & Hb18 & E18) & _).
  rewrite E8 in M8. rewrite E18 in M18.
  pose proof (adiabatic_at_least_2 _ _ _ Hb8 M8 G8) as R8.
  pose proof (adiabatic_at_least_2 _ _ _ Hb18 M18 G18) as R18.
  assert (L8 : 0.0405 <= Point.Pt8 p / Main.Ps0) by lra.
  assert (L18 : 0.0405 <= Point.Pt18 p / Main.Ps0) by lra.
  destruct (nozzle_reported_sonic _ _ _ _ _ _ _ _ _ _ p Hp) as [N8 N18].
  exists p. split; [exact Hp|]. split; [exact L8|]. split; [exact L18|].
  split; [apply (N8 L8)|]. split; [apply (N8 L8)|].
  split; [apply (N18 L18) | apply (N18 L18)].
Defined.

(** ** How the stations compose *)

Lemma py_pow_nonneg_inv (x y b : R) :
  0 < y -> py_pow x y = Ok b -> 0 <= x /\ 0 <= b /\ (x = 0 -> b = 0).
Proof.
  intros Hy H. destruct (py_pow_inv _ _ _ Hy H) as [(Hx & -> & Hb) | (-> & ->)].
  - repeat split; lra.
  - repeat split; lra.
Qed.

(** X7.  With a compressor ratio of 1 the high-pressure spool is
    transparent: the compressor leaves pressure and temperature unchanged,
    and the high-pressure turbine extracts nothing. *)
Theorem unit_compressor_ratio
        (dm beta pi_fan Tt4 M0 Ts0 Ps0 M1 M2 : R) (p : Point.locals) :
  cycle_point dm beta pi_fan 1 Tt4 M0 Ts0 Ps0 M1 M2 = Ok p ->
  Point.Pt3 p = Point.Pt13 p /\ Point.Tt3 p = Point.Tt13 p /\
  Point.Tt42 p = Tt4 /\ Point.tau_hpt p = 1 /\ Point.Pt42 p = Point.Pt4 p.
Proof.
  intros Hp.
  destruct (point_fan _ _ _ _ _ _ _ _ _ _ _ Hp) as (_ & EP3 & _).
  destruct (point_compressor _ _ _ _ _ _ _ _ _ _ _ Hp)
    as (b13 & b3 & _ & H3 & E13 & E3).
  destruct (point_turbines _ _ _ _ _ _ _ _ _ _ _ Hp)
    as (_ & E42 & H4 & Eth & _ & _ & _ & b42 & b5 & Hb42 & _ & EP42 & _).
  rewrite py_pow_pos, Rpower_one_base in H3 by lra. apply Ok_inj in H3. subst b3.
  assert (T3 : Point.Tt3 p = Point.Tt13 p) by (rewrite E3, E13; ring).
  assert (T42 : Point.Tt42 p = Tt4).
  { rewrite E42, T3. unfold Rdiv. ring. }
  assert (Th : Point.tau_hpt p = 1) by (rewrite Eth, T42; now field).
  rewrite Th, py_pow_pos, Rpower_one_base in Hb42 by lra.
  apply Ok_inj in Hb42. subst b42.
  repeat split; try assumption.
  - rewrite EP3. ring.
  - rewrite EP42. ring.
Qed.

Lemma unit_compressor_ratio_witness :
  exists p,
    cycle_point Main.dm Main.beta Main.pi_fan 1 Main.Tt4
                Main.M0 Main.Ts0 Main.Ps0 Main.M1 Main.M2 = Ok p /\
    Point.Tt42 p = Main.Tt4 /\ Point.Pt42 p = Point.Pt4 p.
Proof.
  destruct (main_point_defined 1 Main.Tt4 ltac:(lra) main_Tt4_in_range) as [p Hp].
  exists p. split; [exact Hp|].
  split; apply (unit_compressor_ratio _ _ _ _ _ _ _ _ _ p Hp).
Defined.

(** X11.  More compression needs less fuel: with a positive inlet
    temperature, a positive primary flow and [Tt4 < PCI], raising the
    compressor ratio raises [Tt3] and strictly lowers the fuel-air ratio,
    the fuel mass flow and the thermal power. *)
Theorem fuel_decreases_with_compression
        (dm beta pi_fan Tt4 M0 Ts0 Ps0 M1 M2 : R)
        (pi_hpc pi_hpc' : R) (p p' : Point.locals) :
  cycle_point dm beta pi_fan pi_hpc Tt4 M0 Ts0 Ps0 M1 M2 = Ok p ->
  cycle_point dm beta pi_fan pi_hpc' Tt4 M0 Ts0 Ps0 M1 M2 = Ok p' ->
  0 < pi_hpc < pi_hpc' -> 0 < pi_fan -> 0 < Ts0 ->
  0 < dm / (1 + beta) -> Tt4 < PCI ->
  Point.Tt3 p < Point.Tt3 p' /\
  Point.f p' < Point.f p /\
  Point.dm_f p' < Point.dm_f p /\
  Point.Wth p' < Point.Wth p.
Proof.
  intros Hp Hp' Hr Hfan Hts Hfp Hpci.
  destruct (point_fan _ _ _ _ _ _ _ _ _ _ _ Hp) as (_ & _ & _ & _ & E3).
  destruct (point_fan _ _ _ _ _ _ _ _ _ _ _ Hp') as (_ & _ & _ & _ & E3').
  specialize (E3 Hfan ltac:(lra)). specialize (E3' Hfan ltac:(lra)).
  assert (P13 : 0 < Tt13_of pi_fan M0 Ts0).
  { unfold Tt13_of, Tt2_of.
    apply Rmult_lt_0_compat; [|apply Rpower_pos].
    apply Rmult_lt_0_compat; [assumption | apply inlet_base_pos]. }
  assert (L3 : Point.Tt3 p < Point.Tt3 p').
  { rewrite E3, E3'. unfold Tt3_of. apply Rmult_lt_compat_l; [exact P13|].
    apply Rlt_Rpower_l; [rewrite exponent_T; lra | lra]. }
  destruct (point_fuel _ _ _ _ _ _ _ _ _ _ _ Hp)
    as (_ & Efp & _ & _ & Edmf & _ & _ & Ewth).
  destruct (point_fuel _ _ _ _ _ _ _ _ _ _ _ Hp')
    as (_ & Efp' & _ & _ & Edmf' & _ & _ & Ewth').
  pose proof (point_fuel_air_ratio _ _ _ _ _ _ _ _ _ _ _ Hp) as Ef.
  pose proof (point_fuel_air_ratio _ _ _ _ _ _ _ _ _ _ _ Hp') as Ef'.
  assert (Hi : 0 < / (PCI - Tt4)) by (apply Rinv_0_lt_compat; lra).
  assert (Lf : Point.f p' < Point.f p).
  { rewrite Ef, Ef'. unfold Rdiv. apply Rmult_lt_compat_r; [exact Hi|].
    apply Rmult_lt_compat_l; [unfold cp; lra | lra]. }
  assert (Ld : Point.dm_f p' < Point.dm_f p).
  { rewrite Edmf, Edmf', Efp, Efp'. unfold Rdiv at 1 3.
    apply Rmult_lt_compat_r; [exact Hi|].
    apply Rmult_lt_compat_l; [|lra].
    apply Rmult_lt_0_compat; [exact Hfp | unfold cp; lra]. }
  repeat split; try assumption.
  rewrite Ewth, Ewth'. unfold PCI in *. lra.
Qed.

Lemma fuel_decreases_with_compression_witness :
  exists p p',
    cycle_point Main.dm Main.beta Main.pi_fan 1 Main.Tt4
                Main.M0 Main.Ts0 Main.Ps0 Main.M1 Main.M2 = Ok p /\
    cycle_point Main.dm Main.beta Main.pi_fan 2 Main.Tt4
                Main.M0 Main.Ts0 Main.Ps0 Main.M1 Main.M2 = Ok p' /\
    Point.f p' < Point.f p /\ Point.Wth p' < Point.Wth p.
Proof.
  destruct (main_point_defined 1 Main.Tt4 ltac:(lra) main_Tt4_in_range) as [p Hp].
  destruct (main_point_defined 2 Main.Tt4 ltac:(lra) main_Tt4_in_range) as [p' Hp'].
  exists p, p'. split; [exact Hp|]. split; [exact Hp'|].
  assert (H : Point.Tt3 p < Point.Tt3 p' /\ Point.f p' < Point.f p /\
              Point.dm_f p' < Point.dm_f p /\ Point.Wth p' < Point.Wth p).
  { apply (fuel_decreases_with_compression _ _ _ _ _ _ _ _ _ 1 2 p p' Hp Hp').
    - lra.
    - unfold Main.pi_fan; lra.
    - unfold Main.Ts0; lra.
    - unfold Main.dm, Main.beta; lra.
    - apply main_Tt4_in_range. }
  split; apply H.
Defined.

(** A power of a number between 0 and 1, as the program takes it, is
    between 0 and 1. *)
Lemma py_pow_unit (x y b : R) :
  0 < y -> x <= 1 -> py_pow x y = Ok b -> 0 <= x /\ 0 <= b <= 1.
Proof.
  intros Hy Hx H.
  destruct (py_pow_inv _ _ _ Hy H) as [(Px & -> & Pb) | (-> & ->)].
  - split; [lra|]. split; [lra|].
    rewrite <- (Rpower_one_base y). apply Rle_Rpower_l; lra.
  - lra.
Qed.

(** X26.  Around the cycle the stations are ordered as in an engine: with
    positive ambient conditions, fan and compressor ratios of at least 1,
    a bypass ratio that is not negative and a combustor exit temperature
    between the compressor exit temperature and [PCI], the total
    temperature and the total pressure do not fall from the free stream
    through the inlet, the fan and the compressor, the fuel-air ratio is
    not negative, and neither total temperature nor total pressure rises
    through the two turbines; the pressure behind them is not negative. *)
Theorem stations_ordered
        (dm beta pi_fan pi_hpc Tt4 M0 Ts0 Ps0 M1 M2 : R) (p : Point.locals) :
  cycle_point dm beta pi_fan pi_hpc Tt4 M0 Ts0 Ps0 M1 M2 = Ok p ->
  0 < Ts0 -> 0 < Ps0 -> 1 <= pi_fan -> 1 <= pi_hpc -> 0 <= beta ->
  Point.Tt3 p <= Tt4 -> Tt4 < PCI ->
  (Ts0 <= Point.Tt2 p /\ Point.Tt2 p <= Point.Tt13 p /\
   Point.Tt13 p <= Point.Tt3 p) /\
  (Ps0 <= Point.Pt2 p /\ Point.Pt2 p <= Point.Pt13 p /\
   Point.Pt13 p <= Point.Pt3 p /\ Point.Pt4 p = Point.Pt3 p) /\
  0 <= Point.f p /\
  (Point.Tt5 p <= Point.Tt42 p /\ Point.Tt42 p <= Tt4) /\
  (0 <= Point.Pt5 p /\ Point.Pt5 p <= Point.Pt42 p /\
   Point.Pt42 p <= Point.Pt4 p).
Proof.
  intros Hp Hts Hps Hfan Hhpc Hbeta H34 Hpci.
  destruct (point_inlet _ _ _ _ _ _ _ _ _ _ _ Hp) as (E2 & EP2).
  destruct (point_fan _ _ _ _ _ _ _ _ _ _ _ Hp) as (EP13 & EP3 & EP4 & E13 & E3).
  specialize (E13 ltac:(lra)). specialize (E3 ltac:(lra) ltac:(lra)).
  destruct (point_fuel _ _ _ _ _ _ _ _ _ _ _ Hp)
    as (_ & _ & _ & _ & Edmf & Nfp & Ef & _).
  destruct (point_turbines _ _ _ _ _ _ _ _ _ _ _ Hp)
    as (_ & E42 & _ & Eth & E5 & N42 & Etl & b42 & b5 & Hb42 & Hb5 & EP42 & EP5).
  assert (He : 0 <= (gamma - 1) / gamma) by (rewrite exponent_T; lra).
  assert (Hg : 0 < gamma / (gamma - 1)) by (rewrite exponent_P; lra).
  assert (M2' : 0 <= M0 ^ 2) by (simpl; nra).
  assert (B2 : 1 <= 1 + (gamma - 1) / 2 * M0 ^ 2) by (unfold gamma; nra).
  pose proof (Rpower_ge_1 _ _ B2 (Rlt_le _ _ Hg)) as Q2.
  pose proof (Rpower_ge_1 pi_fan _ Hfan He) as B13.
  pose proof (Rpower_ge_1 pi_hpc _ Hhpc He) as B3.
  assert (T2 : Ts0 <= Point.Tt2 p) by (rewrite E2; nra).
  assert (T13 : Point.Tt2 p <= Point.Tt13 p).
  { rewrite E13. unfold Tt13_of, Tt2_of. rewrite <- E2. nra. }
  assert (T3 : Point.Tt13 p <= Point.Tt3 p).
  { rewrite E3. unfold Tt3_of. rewrite <- E13. nra. }
  assert (P2 : Ps0 <= Point.Pt2 p) by (rewrite EP2; nra).
  assert (P13 : Point.Pt2 p <= Point.Pt13 p) by (rewrite EP13; nra).
  assert (P3 : Point.Pt13 p <= Point.Pt3 p) by (rewrite EP3; nra).
  (* fuel-air ratio *)
  assert (F : Point.f p = cp * (Tt4 - Point.Tt3 p) / (PCI - Tt4)).
  { rewrite Ef, Edmf. field. split; [lra | exact Nfp]. }
  assert (Hf : 0 <= Point.f p).
  { rewrite F. unfold Rdiv. apply Rmult_le_pos.
    - apply Rmult_le_pos; [unfold cp; lra | lra].
    - apply Rlt_le, Rinv_0_lt_compat. lra. }
  assert (Hd : 1 <= 1 + Point.f p) by lra.
  (* turbines *)
  pose proof (div_le_self (Point.Tt3 p - Point.Tt13 p) _ ltac:(lra) Hd) as Q42.
  assert (W5 : 0 <= (1 + beta) * (Point.Tt13 p - Point.Tt2 p))
    by (apply Rmult_le_pos; lra).
  pose proof (div_le_self _ _ W5 Hd) as Q5.
  assert (T42 : Point.Tt42 p <= Tt4) by (rewrite E42; lra).
  assert (T5 : Point.Tt5 p <= Point.Tt42 p) by (rewrite E5; lra).
  assert (P4 : 0 < Tt4) by lra.
  assert (L42 : Point.tau_hpt p <= 1).
  { rewrite Eth. apply (Rmult_le_reg_r Tt4); [exact P4|].
    unfold Rdiv. rewrite Rmult_assoc, Rinv_l by lra. lra. }
  destruct (py_pow_unit _ _ _ Hg L42 Hb42) as (Th & U42).
  assert (P42 : 0 < Point.Tt42 p).
  { rewrite Eth in Th.
    assert (0 <= Point.Tt42 p).
    { replace (Point.Tt42 p) with (Point.Tt42 p / Tt4 * Tt4) by (field; lra).
      apply Rmult_le_pos; lra. }
    lra. }
  assert (L5 : Point.tau_lpt p <= 1).
  { rewrite Etl. apply (Rmult_le_reg_r (Point.Tt42 p)); [exact P42|].
    unfold Rdiv. rewrite Rmult_assoc, Rinv_l by lra. lra. }
  destruct (py_pow_unit _ _ _ Hg L5 Hb5) as (Tl & U5).
  assert (PP4 : 0 < Point.Pt4 p) by (rewrite EP4; lra).
  assert (PP42 : 0 <= Point.Pt42 p) by (rewrite EP42; apply Rmult_le_pos; lra).
  repeat split; try assumption.
  - rewrite EP5. apply Rmult_le_pos; lra.
  - rewrite EP5. rewrite <- (Rmult_1_r (Point.Pt42 p)) at 2.
    apply Rmult_le_compat_l; lra.
  - rewrite EP42. rewrite <- (Rmult_1_r (Point.Pt4 p)) at 2.
    apply Rmult_le_compat_l; lra.
Qed.

Lemma stations_ordered_witness :
  exists p,
    cycle_point Main.dm Main.beta Main.pi_fan 1 Main.Tt4
                Main.M0 Main.Ts0 Main.Ps0 Main.M1 Main.M2 = Ok p /\
    Main.Ts0 <= Point.Tt2 p /\ Point.Tt13 p <= Point.Tt3 p /\
    Point.Tt5 p <= Point.Tt42 p /\ Point.Tt42 p <= Main.Tt4 /\
    Point.Pt5 p <= Point.Pt42 p /\ Point.Pt42 p <= Point.Pt4 p.
Proof.
  destruct (main_point_defined 1 Main.Tt4 ltac:(lra) main_Tt4_in_range) as [p Hp].
  destruct (main_first_point p Hp)
    as (v8 & v18 & v0 & t & wc & _ & _ & B13 & E3 & _).
  assert (H34 : Point.Tt3 p <= Main.Tt4) by (rewrite E3; unfold Main.Tt4; lra).
  destruct (stations_ordered _ _ _ _ _ _ _ _ _ _ p Hp
              ltac:(unfold Main.Ts0; lra) ltac:(unfold Main.Ps0; lra)
              ltac:(unfold Main.pi_fan; lra) ltac:(lra)
              ltac:(unfold Main.beta; lra) H34
              ltac:(unfold Main.Tt4, PCI; lra))
    as ((T2 & _ & T3) & _ & _ & (T5 & T42) & (_ & P5 & P42)).
  exists p. repeat split; assumption.
Defined.

(** ** The domain of a pass *)

Lemma py_pow_nonneg (x y : R) :
  0 <= x -> 0 < y -> exists b, py_pow x y = Ok b /\ 0 <= b.
Proof.
  intros [Hx | <-] Hy.
  - exists (Rpower x y). split; [now apply py_pow_pos|].
    apply Rlt_le, Rpower_pos.
  - exists 0. split; [now apply py_pow_zero | lra].
Qed.

Lemma pass_domain_evaluates (dm beta pi_fan pi_hpc Tt4 M0 Ts0 Ps0 M1 M2 : R) :
  pass_domain dm beta pi_fan pi_hpc Tt4 M0 Ts0 Ps0 ->
  exists p, cycle_point dm beta pi_fan pi_hpc Tt4 M0 Ts0 Ps0 M1 M2 = Ok p.
Proof.
  intros (b13 & b3 & H13 & H3 & Hb & Hpci & Hdm & Ht4 & Hps & H).
  cbv zeta in H. destruct H as (Hf & N42 & P42 & P5).
  assert (Hfp : dm / (1 + beta) <> 0).
  { unfold Rdiv. apply Rmult_integral_contrapositive_currified; auto.
    now apply Rinv_neq_0_compat. }
  assert (Pe : 0 < (gamma - 1) / gamma) by (rewrite exponent_T; lra).
  assert (Pg : 0 < gamma / (gamma - 1)) by (rewrite exponent_P; lra).
  destruct (py_pow_nonneg_inv _ _ _ Pe H13) as (Pfan & Pb13 & _).
  destruct (py_pow_nonneg_inv _ _ _ Pe H3) as (Phpc & Pb3 & _).
  destruct (py_pow_nonneg _ _ P42 Pg) as (b42 & Hb42 & Pb42).
  destruct (py_pow_nonneg _ _ P5 Pg) as (b5 & Hb5 & Pb5).
  unfold cycle_point; cbv zeta.
  rewrite (py_pow_pos (1 + (gamma - 1) / 2 * M0 ^ 2)) by apply inlet_base_pos.
  cbn [bind]. rewrite H13. cbn [bind].
  rewrite (py_div_ok dm) by assumption. cbn [bind].
  rewrite H3. cbn [bind].
  rewrite (py_div_ok _ (PCI - Tt4)) by assumption. cbn [bind].
  rewrite (py_div_ok _ (dm / (1 + beta))) by assumption. cbn [bind].
  fold (Tt2_of M0 Ts0).
  replace (dm / (1 + beta) * cp * (Tt4 - Tt2_of M0 Ts0 * b13 * b3)
           / (PCI - Tt4) / (dm / (1 + beta)))
    with (cp * (Tt4 - Tt2_of M0 Ts0 * b13 * b3) / (PCI - Tt4))
    by (field; repeat split; assumption).
  rewrite (py_div_ok _ (1 + cp * (Tt4 - Tt2_of M0 Ts0 * b13 * b3) / (PCI - Tt4)))
    by assumption.
  cbn [bind].
  rewrite (py_div_ok _ Tt4) by assumption. cbn [bind].
  rewrite Hb42. cbn [bind].
  rewrite (py_div_ok _ (1 + cp * (Tt4 - Tt2_of M0 Ts0 * b13 * b3) / (PCI - Tt4)))
    by assumption.
  cbn [bind].
  rewrite py_div_ok by assumption. cbn [bind].
  rewrite Hb5. cbn [bind].
  rewrite (py_div_ok _ Ps0) by assumption. cbn [bind].
  set (Q := Rpower (1 + (gamma - 1) / 2 * M0 ^ 2) (gamma / (gamma - 1))).
  assert (PQ : 0 < Q) by apply Rpower_pos.
  destruct (py_pow_nonneg (Ps0 * Q * pi_fan * pi_hpc * b42 * b5 / Ps0)
                          ((gamma - 1) / gamma)) as (b8 & Hb8 & _);
    [|exact Pe|].
  { replace (Ps0 * Q * pi_fan * pi_hpc * b42 * b5 / Ps0)
      with (Q * pi_fan * pi_hpc * b42 * b5) by (field; assumption).
    repeat apply Rmult_le_pos; lra. }
  rewrite Hb8. cbn [bind].
  rewrite (py_div_ok _ Ps0) by assumption. cbn [bind].
  destruct (py_pow_nonneg (Ps0 * Q * pi_fan / Ps0) ((gamma - 1) / gamma))
    as (b18 & Hb18 & _); [|exact Pe|].
  { replace (Ps0 * Q * pi_fan / Ps0) with (Q * pi_fan) by (field; assumption).
    repeat apply Rmult_le_pos; lra. }
  rewrite Hb18. cbn [bind].
  rewrite (py_pow_pos (1 + (gamma - 1) / 2 * M1 ^ 2)) by apply inlet_base_pos.
  cbn [bind].
  rewrite (py_pow_pos (1 + (gamma - 1) / 2 * M2 ^ 2)) by apply inlet_base_pos.
  cbn [bind].
  eexists. reflexivity.
Qed.

Lemma pass_evaluates_in_domain
      (dm beta pi_fan pi_hpc Tt4 M0 Ts0 Ps0 M1 M2 : R) (p : Point.locals) :
  cycle_point dm beta pi_fan pi_hpc Tt4 M0 Ts0 Ps0 M1 M2 = Ok p ->
  pass_domain dm beta pi_fan pi_hpc Tt4 M0 Ts0 Ps0.
Proof.
  intros Hp.
  destruct (point_inlet _ _ _ _ _ _ _ _ _ _ _ Hp) as (E2 & _).
  fold (Tt2_of M0 Ts0) in E2.
  destruct (point_compressor _ _ _ _ _ _ _ _ _ _ _ Hp)
    as (b13 & b3 & H13 & H3 & E13 & E3).
  destruct (point_fuel _ _ _ _ _ _ _ _ _ _ _ Hp)
    as (Hb & Efp & _ & Hpci & _ & Hfp & _).
  pose proof (point_fuel_air_ratio _ _ _ _ _ _ _ _ _ _ _ Hp) as Ef.
  destruct (point_turbines _ _ _ _ _ _ _ _ _ _ _ Hp)
    as (Hf & E42 & H4 & Eth & E5 & N42 & Etl & b42 & b5 & Hb42 & Hb5 & _).
  destruct (point_nozzles _ _ _ _ _ _ _ _ _ _ _ Hp) as (Hps & _).
  assert (Pg : 0 < gamma / (gamma - 1)) by (rewrite exponent_P; lra).
  destruct (py_pow_nonneg_inv _ _ _ Pg Hb42) as (Ph & _).
  destruct (py_pow_nonneg_inv _ _ _ Pg Hb5) as (Pl & _).
  assert (Hdm : dm <> 0).
  { intros E. apply Hfp. rewrite Efp, E. unfold Rdiv. ring. }
  exists b13, b3.
  split; [exact H13|]. split; [exact H3|]. split; [exact Hb|].
  split; [exact Hpci|]. split; [exact Hdm|]. split; [exact H4|].
  split; [exact Hps|].
  cbv zeta.
  replace (Tt2_of M0 Ts0 * b13 * b3) with (Point.Tt3 p) by (rewrite E3; ring).
  rewrite <- E13, <- Ef, <- E42, <- E2, <- E5, <- Eth, <- Etl.
  repeat split; assumption.
Qed.

(** ** Divisions by zero *)

(** X13.  Without core flow ([1 + beta = 0]), at [Tt4 = PCI] or without
    mass flow ([dm = 0]), the first pass of a call raises
    [ZeroDivisionError] (at [dm / (1 + beta)], at the fuel balance, at
    [dm_f / dm_fp]), and so does the call, whatever the other ratios. *)
Theorem zero_divisors_raise
        (dm beta pi_fan pi_hpc Tt4 M0 Ts0 Ps0 M1 M2 : R) (rest : list R) :
  0 <= pi_fan -> 0 <= pi_hpc ->
  1 + beta = 0 \/ Tt4 = PCI \/ dm = 0 ->
  compute_engine_performance dm beta pi_fan (pi_hpc :: rest)
                             Tt4 M0 Ts0 Ps0 M1 M2
  = Raise ZeroDivisionError.
Proof.
  intros Hfan Hhpc Hz.
  assert (Pe : 0 < (gamma - 1) / gamma) by (rewrite exponent_T; lra).
  destruct (py_pow_nonneg _ _ Hfan Pe) as (b13 & H13 & _).
  destruct (py_pow_nonneg _ _ Hhpc Pe) as (b3 & H3 & _).
  unfold compute_engine_performance. cbn [sweep].
  replace (cycle_point dm beta pi_fan pi_hpc Tt4 M0 Ts0 Ps0 M1 M2)
    with (@Raise Point.locals ZeroDivisionError); [reflexivity|].
  symmetry. unfold cycle_point; cbv zeta.
  rewrite (py_pow_pos (1 + (gamma - 1) / 2 * M0 ^ 2)) by apply inlet_base_pos.
  cbn [bind]. rewrite H13. cbn [bind].
  destruct (Req_dec_T (1 + beta) 0) as [Eb|Nb].
  { rewrite Eb, py_div_zero. reflexivity. }
  rewrite (py_div_ok dm) by assumption. cbn [bind].
  rewrite H3. cbn [bind].
  destruct (Req_dec_T (PCI - Tt4) 0) as [Ep|Np].
  { rewrite Ep, py_div_zero. reflexivity. }
  rewrite (py_div_ok _ (PCI - Tt4)) by assumption. cbn [bind].
  assert (Edm : dm = 0) by (destruct Hz as [E | [E | E]]; [contradiction | lra | exact E]).
  replace (dm / (1 + beta)) with 0 by (rewrite Edm; unfold Rdiv; ring).
  rewrite py_div_zero. reflexivity.
Qed.

Lemma zero_divisors_raise_witness :
  compute_engine_performance 0 Main.beta Main.pi_fan [1; 2]
                             Main.Tt4 Main.M0 Main.Ts0 Main.Ps0 Main.M1 Main.M2
  = Raise ZeroDivisionError
  /\ compute_engine_performance Main.dm Main.beta Main.pi_fan [1; 2]
                                PCI Main.M0 Main.Ts0 Main.Ps0 Main.M1 Main.M2
     = Raise ZeroDivisionError.
Proof.
  split; apply zero_divisors_raise;
    try (unfold Main.pi_fan; lra); try lra; auto.
Defined.

(** X14.  The ambient pressure is a divisor: inputs on which a pass
    evaluates at some ambient pressure raise [ZeroDivisionError] at
    [Ps0 = 0]. *)
Theorem zero_ambient_pressure_raises
        (dm beta pi_fan pi_hpc Tt4 M0 Ts0 Ps0 M1 M2 : R) (p : Point.locals) :
  cycle_point dm beta pi_fan pi_hpc Tt4 M0 Ts0 Ps0 M1 M2 = Ok p ->
  cycle_point dm beta pi_fan pi_hpc Tt4 M0 Ts0 0 M1 M2
  = Raise ZeroDivisionError.
Proof.
  intros Hp.
  destruct (pass_evaluates_in_domain _ _ _ _ _ _ _ _ _ _ p Hp)
    as (b13 & b3 & H13 & H3 & Hb & Hpci & Hdm & Ht4 & _ & H).
  cbv zeta in H. destruct H as (Hf & N42 & P42 & P5).
  assert (Hfp : dm / (1 + beta) <> 0).
  { unfold Rdiv. apply Rmult_integral_contrapositive_currified; auto.
    now apply Rinv_neq_0_compat. }
  assert (Pg : 0 < gamma / (gamma - 1)) by (rewrite exponent_P; lra).
  destruct (py_pow_nonneg _ _ P42 Pg) as (b42 & Hb42 & _).
  destruct (py_pow_nonneg _ _ P5 Pg) as (b5 & Hb5 & _).
  unfold cycle_point; cbv zeta.
  rewrite (py_pow_pos (1 + (gamma - 1) / 2 * M0 ^ 2)) by apply inlet_base_pos.
  cbn [bind]. rewrite H13. cbn [bind].
  rewrite (py_div_ok dm) by assumption. cbn [bind].
  rewrite H3. cbn [bind].
  rewrite (py_div_ok _ (PCI - Tt4)) by assumption. cbn [bind].
  rewrite (py_div_ok _ (dm / (1 + beta))) by assumption. cbn [bind].
  fold (Tt2_of M0 Ts0).
  replace (dm / (1 + beta) * cp * (Tt4 - Tt2_of M0 Ts0 * b13 * b3)
           / (PCI - Tt4) / (dm / (1 + beta)))
    with (cp * (Tt4 - Tt2_of M0 Ts0 * b13 * b3) / (PCI - Tt4))
    by (field; repeat split; assumption).
  rewrite (py_div_ok _ (1 + cp * (Tt4 - Tt2_of M0 Ts0 * b13 * b3) / (PCI - Tt4)))
    by assumption.
  cbn [bind].
  rewrite (py_div_ok _ Tt4) by assumption. cbn [bind].
  rewrite Hb42. cbn [bind].
  rewrite (py_div_ok _ (1 + cp * (Tt4 - Tt2_of M0 Ts0 * b13 * b3) / (PCI - Tt4)))
    by assumption.
  cbn [bind].
  rewrite py_div_ok by assumption. cbn [bind].
  rewrite Hb5. cbn [bind].
  rewrite py_div_zero. reflexivity.
Qed.

Lemma zero_ambient_pressure_raises_witness :
  cycle_point Main.dm Main.beta Main.pi_fan 1 Main.Tt4
              Main.M0 Main.Ts0 0 Main.M1 Main.M2
  = Raise ZeroDivisionError.
Proof.
  destruct (main_point_defined 1 Main.Tt4 ltac:(lra) main_Tt4_in_range) as [p Hp].
  exact (zero_ambient_pressure_raises _ _ _ _ _ _ _ _ _ _ p Hp).
Defined.

(** ** Flight conditions *)

Lemma main_engine_point_defined (dm Ps0 M1 M2 pi_hpc Tt4 : R) :
  0 < dm -> 0 < Ps0 -> 1 <= pi_hpc <= 14 -> 800 <= Tt4 < PCI ->
  exists p, cycle_point dm Main.beta Main.pi_fan pi_hpc Tt4
                        Main.M0 Main.Ts0 Ps0 M1 M2 = Ok p.
Proof.
  intros Hdm Hps Hr Ht.
  pose proof main_Tt13 as H13. pose proof (main_Tt3 _ Hr) as H3.
  apply cycle_point_valid; try assumption.
  - unfold Main.beta; lra.
  - unfold Main.pi_fan; lra.
  - lra.
  - unfold Main.Ts0; lra.
  - lra.
  - lra.
  - rewrite main_Tt2. unfold Main.beta. lra.
Qed.

Lemma static_point_defined :
  exists p, cycle_point Main.dm Main.beta Main.pi_fan 1 Main.Tt4
                        0 Main.Ts0 Main.Ps0 Main.M1 Main.M2 = Ok p.
Proof.
  pose proof main_fan_rise as HP.
  assert (E2 : Tt2_of 0 Main.Ts0 = 280.65)
    by (unfold Tt2_of, Main.Ts0, gamma; lra).
  assert (E13 : 314 <= Tt13_of Main.pi_fan 0 Main.Ts0 <= 318)
    by (unfold Tt13_of; rewrite E2; lra).
  assert (E3 : Tt3_of Main.pi_fan 1 0 Main.Ts0 = Tt13_of Main.pi_fan 0 Main.Ts0)
    by (unfold Tt3_of; rewrite Rpower_one_base; ring).
  apply cycle_point_valid.
  - unfold Main.dm; lra.
  - unfold Main.beta; lra.
  - unfold Main.pi_fan; lra.
  - lra.
  - unfold Main.Ts0; lra.
  - unfold Main.Ps0; lra.
  - rewrite E3. unfold Main.Tt4. lra.
  - apply main_Tt4_in_range.
  - rewrite E3, E2. unfold Main.beta, Main.Tt4. lra.
Qed.

(** X6.  At rest ([M0 = 0], with a non-negative static temperature) the
    inlet total conditions are the static ones, the flight velocity is 0,
    the net thrust is the sum of the two stream thrusts, and the
    propulsive power is 0 whenever the thrust is a number. *)
Theorem static_thrust
        (dm beta pi_fan pi_hpc Tt4 Ts0 Ps0 M1 M2 : R) (p : Point.locals) :
  cycle_point dm beta pi_fan pi_hpc Tt4 0 Ts0 Ps0 M1 M2 = Ok p ->
  0 <= Ts0 ->
  Point.Tt2 p = Ts0 /\ Point.Pt2 p = Ps0 /\
  Point.V0 p = Some 0 /\
  Point.T p = (Point.T_fp p +! Point.T_fs p)%np /\
  (forall t, Point.T p = Some t -> Point.Wprop p = Some 0).
Proof.
  intros Hp Hts.
  destruct (point_inlet _ _ _ _ _ _ _ _ _ _ _ Hp) as (E2 & EP2).
  destruct (point_thrust _ _ _ _ _ _ _ _ _ _ _ Hp) as (EV0 & _ & _ & ET & _).
  destruct (point_power _ _ _ _ _ _ _ _ _ _ _ Hp) as (EWp & _).
  assert (B1 : 1 + (gamma - 1) / 2 * 0 ^ 2 = 1) by (unfold gamma; lra).
  rewrite B1 in E2, EP2. rewrite Rpower_one_base in EP2.
  assert (V : Point.V0 p = Some 0).
  { rewrite EV0, np_sqrt_Some.
    - simpl. f_equal. ring.
    - unfold gamma, R_gas. lra. }
  split; [rewrite E2; ring|]. split; [rewrite EP2; ring|].
  split; [exact V|]. split.
  - rewrite ET, V.
    destruct (Point.T_fp p +! Point.T_fs p)%np as [x|]; simpl;
      [f_equal; ring | reflexivity].
  - intros t Ht. rewrite EWp, Ht, V. simpl. f_equal. ring.
Qed.

Lemma static_thrust_witness :
  exists p,
    cycle_point Main.dm Main.beta Main.pi_fan 1 Main.Tt4
                0 Main.Ts0 Main.Ps0 Main.M1 Main.M2 = Ok p /\
    Point.V0 p = Some 0 /\
    Point.T p = (Point.T_fp p +! Point.T_fs p)%np.
Proof.
  destruct static_point_defined as [p Hp].
  exists p. split; [exact Hp|].
  split; apply (static_thrust _ _ _ _ _ _ _ _ _ p Hp); unfold Main.Ts0; lra.
Defined.

(** ** Reference areas *)

Section Inlet_areas.

Variables dm beta pi_fan pi_hpc Tt4 M0 Ts0 Ps0 M1 M2 : R.
Variable p : Point.locals.
Hypothesis Hp : cycle_point dm beta pi_fan pi_hpc Tt4 M0 Ts0 Ps0 M1 M2 = Ok p.

(** The two reference areas in terms of [dm], the flight condition and
    the station Mach number alone. *)
Lemma point_inlet_areas :
  Point.A1 p =
    ((fin dm *! np_sqrt (Tt2_of M0 Ts0))
     /! (fin (Ps0 * Rpower (1 + (gamma - 1) / 2 * M0 ^ 2) (gamma / (gamma - 1)))
         *! (np_sqrt (gamma / R_gas) *! fin M1
             *! fin (Rpower (1 + (gamma - 1) / 2 * M1 ^ 2)
                            (- (gamma + 1) / (2 * (gamma - 1)))))))%np /\
  Point.A2 p =
    ((fin dm *! np_sqrt (Tt2_of M0 Ts0))
     /! (fin (Ps0 * Rpower (1 + (gamma - 1) / 2 * M0 ^ 2) (gamma / (gamma - 1)))
         *! (np_sqrt (gamma / R_gas) *! fin M2
             *! fin (Rpower (1 + (gamma - 1) / 2 * M2 ^ 2)
                            (- (gamma + 1) / (2 * (gamma - 1)))))))%np.
Proof.
  pose proof Hp as H. invert_point H.
  rewrite py_pow_pos in Hv, Hv15, Hv16 by apply inlet_base_pos.
  apply Ok_inj in Hv, Hv15, Hv16. subst.
  unfold Tt2_of. split; reflexivity.
Qed.

End Inlet_areas.

(** X15.  The reference areas [A1] and [A2] are inlet quantities: they
    do not change with the bypass ratio, the fan and compressor ratios or
    the combustor exit temperature. *)
Theorem reference_areas_ignore_engine
        (dm M0 Ts0 Ps0 M1 M2 : R)
        (beta pi_fan pi_hpc Tt4 beta' pi_fan' pi_hpc' Tt4' : R)
        (p p' : Point.locals) :
  cycle_point dm beta pi_fan pi_hpc Tt4 M0 Ts0 Ps0 M1 M2 = Ok p ->
  cycle_point dm beta' pi_fan' pi_hpc' Tt4' M0 Ts0 Ps0 M1 M2 = Ok p' ->
  Point.A1 p = Point.A1 p' /\ Point.A2 p = Point.A2 p'.
Proof.
  intros Hp Hp'.
  destruct (point_inlet_areas _ _ _ _ _ _ _ _ _ _ _ Hp) as (-> & ->).
  destruct (point_inlet_areas _ _ _ _ _ _ _ _ _ _ _ Hp') as (-> & ->).
  split; reflexivity.
Qed.

Lemma reference_areas_ignore_engine_witness :
  exists p p',
    cycle_point Main.dm Main.beta Main.pi_fan 1 1300
                Main.M0 Main.Ts0 Main.Ps0 Main.M1 Main.M2 = Ok p /\
    cycle_point Main.dm Main.beta Main.pi_fan 2 1400
                Main.M0 Main.Ts0 Main.Ps0 Main.M1 Main.M2 = Ok p' /\
    Point.A1 p = Point.A1 p' /\ Point.A2 p = Point.A2 p'.
Proof.
  destruct (main_point_defined 1 1300 ltac:(lra) ltac:(unfold PCI; lra))
    as [p Hp].
  destruct (main_point_defined 2 1400 ltac:(lra) ltac:(unfold PCI; lra))
    as [p' Hp'].
  exists p, p'. split; [exact Hp|]. split; [exact Hp'|].
  exact (reference_areas_ignore_engine _ _ _ _ _ _ _ _ _ _ _ _ _ _ p p' Hp Hp').
Defined.

(** X16.  A station Mach number of 0 makes the corrected flow function 0
    and the corresponding reference area a division by zero: the pass
    still returns, and the area is not a finite number. *)
Theorem zero_station_mach
        (dm beta pi_fan pi_hpc Tt4 M0 Ts0 Ps0 M1 M2 : R) (p : Point.locals) :
  cycle_point dm beta pi_fan pi_hpc Tt4 M0 Ts0 Ps0 M1 M2 = Ok p ->
  (M1 = 0 -> Point.Dr1 p = Some 0 /\ Point.A1 p = None) /\
  (M2 = 0 -> Point.Dr2 p = Some 0 /\ Point.A2 p = None).
Proof.
  intros Hp.
  assert (S : np_sqrt (gamma / R_gas) = Some (sqrt (gamma / R_gas)))
    by (apply np_sqrt_Some; unfold gamma, R_gas; lra).
  assert (zero_div : forall (a : npfloat) (y : R),
             y = 0 -> (a /! Some y)%np = None).
  { intros [x|] y ->; simpl; [|reflexivity].
    destruct (Req_dec_T 0 0) as [_|N]; [reflexivity | now elim N]. }
  pose proof Hp as H. invert_point H. rewrite S.
  split; intros ->; (split; [simpl; f_equal; ring | apply zero_div; ring]).
Qed.

Lemma zero_station_mach_witness :
  exists p,
    cycle_point Main.dm Main.beta Main.pi_fan 1 Main.Tt4
                Main.M0 Main.Ts0 Main.Ps0 0 Main.M2 = Ok p /\
    Point.Dr1 p = Some 0 /\ Point.A1 p = None.
Proof.
  destruct (main_engine_point_defined Main.dm Main.Ps0 0 Main.M2 1 Main.Tt4)
    as [p Hp];
    [unfold Main.dm; lra | unfold Main.Ps0; lra | lra
     | apply main_Tt4_in_range |].
  exists p. split; [exact Hp|].
  apply (zero_station_mach _ _ _ _ _ _ _ _ _ _ p Hp). reflexivity.
Defined.

(** X17.  With a positive mass flow, positive ambient temperature and
    pressure and a positive station Mach number, the reference area is a
    positive real number. *)
Theorem reference_area_positive
        (dm beta pi_fan pi_hpc Tt4 M0 Ts0 Ps0 M1 M2 : R) (p : Point.locals) :
  cycle_point dm beta pi_fan pi_hpc Tt4 M0 Ts0 Ps0 M1 M2 = Ok p ->
  0 < dm -> 0 < Ts0 -> 0 < Ps0 ->
  (0 < M1 -> exists a1, Point.A1 p = Some a1 /\ 0 < a1) /\
  (0 < M2 -> exists a2, Point.A2 p = Some a2 /\ 0 < a2).
Proof.
  intros Hp Hdm Hts Hps.
  destruct (point_inlet_areas _ _ _ _ _ _ _ _ _ _ _ Hp) as (-> & ->).
  assert (S : np_sqrt (gamma / R_gas) = Some (sqrt (gamma / R_gas)))
    by (apply np_sqrt_Some; unfold gamma, R_gas; lra).
  assert (PS : 0 < sqrt (gamma / R_gas))
    by (apply sqrt_lt_R0; unfold gamma, R_gas; lra).
  assert (P2 : 0 < Tt2_of M0 Ts0).
  { unfold Tt2_of. apply Rmult_lt_0_compat; [assumption | apply inlet_base_pos]. }
  assert (S2 : np_sqrt (Tt2_of M0 Ts0) = Some (sqrt (Tt2_of M0 Ts0)))
    by (apply np_sqrt_Some; lra).
  assert (PS2 : 0 < sqrt (Tt2_of M0 Ts0)) by (apply sqrt_lt_R0; exact P2).
  rewrite S, S2.
  assert (area : forall M c, 0 < M -> 0 < c ->
             exists a,
               ((fin dm *! Some (sqrt (Tt2_of M0 Ts0)))
                /! (fin (Ps0 * Rpower (1 + (gamma - 1) / 2 * M0 ^ 2)
                                      (gamma / (gamma - 1)))
                    *! (Some (sqrt (gamma / R_gas)) *! fin M *! fin c)))%np
               = Some a /\ 0 < a).
  { intros M c HM Hc. unfold fin. cbn [np_mul np_lift2].
    assert (D : 0 < Ps0 * Rpower (1 + (gamma - 1) / 2 * M0 ^ 2)
                                 (gamma / (gamma - 1))
                    * (sqrt (gamma / R_gas) * M * c)).
    { repeat apply Rmult_lt_0_compat; try assumption. apply Rpower_pos. }
    rewrite np_div_Some by lra.
    eexists. split; [reflexivity|].
    apply Rdiv_lt_0_compat; [apply Rmult_lt_0_compat; assumption | exact D]. }
  split; intros HM; apply area; try assumption; apply Rpower_pos.
Qed.

Lemma reference_area_positive_witness :
  exists p a1,
    cycle_point Main.dm Main.beta Main.pi_fan 1 Main.Tt4
                Main.M0 Main.Ts0 Main.Ps0 Main.M1 Main.M2 = Ok p /\
    Point.A1 p = Some a1 /\ 0 < a1.
Proof.
  destruct (main_point_defined 1 Main.Tt4 ltac:(lra) main_Tt4_in_range) as [p Hp].
  destruct (reference_area_positive _ _ _ _ _ _ _ _ _ _ p Hp) as [H1 _].
  - unfold Main.dm; lra.
  - unfold Main.Ts0; lra.
  - unfold Main.Ps0; lra.
  - destruct H1 as (a1 & E & P); [unfold Main.M1; lra|].
    exists p, a1. split; [exact Hp|]. split; [exact E | exact P].
Defined.

(** ** Edge cases of the combustor and the compressor *)




(** X21.  A compressor ratio of 0 is not rejected: the pressures from
    the compressor on are 0, the radicand of the primary adiabatic Mach
    number is -1, so [M8_ad] is [nan] and the nozzle is reported at Mach 1,
    and the primary exit area divides by zero. *)
Theorem zero_compressor_ratio
        (dm beta pi_fan Tt4 M0 Ts0 Ps0 M1 M2 : R) (p : Point.locals) :
  cycle_point dm beta pi_fan 0 Tt4 M0 Ts0 Ps0 M1 M2 = Ok p ->
  Point.Tt3 p = 0 /\ Point.Pt3 p = 0 /\ Point.Pt8 p = 0 /\
  Point.M8_ad p = None /\ Point.M8 p = fin 1 /\ Point.A8 p = None.
Proof.
  intros Hp.
  assert (Pe : 0 < (gamma - 1) / gamma) by (rewrite exponent_T; lra).
  destruct (point_fan _ _ _ _ _ _ _ _ _ _ _ Hp) as (_ & EP3 & EP4 & _).
  destruct (point_compressor _ _ _ _ _ _ _ _ _ _ _ Hp)
    as (b13 & b3 & _ & H3 & _ & E3).
  destruct (point_turbines _ _ _ _ _ _ _ _ _ _ _ Hp)
    as (_ & _ & _ & _ & _ & _ & _ & b42 & b5 & _ & _ & EP42 & EP5).
  destruct (point_nozzles _ _ _ _ _ _ _ _ _ _ _ Hp)
    as (Hps & (_ & EP8 & b8 & Hb8 & EM8ad) & EM8 & _).
  destruct (point_areas _ _ _ _ _ _ _ _ _ _ _ Hp) as (EA8 & _).
  rewrite py_pow_zero in H3 by exact Pe. apply Ok_inj in H3. subst b3.
  assert (P3 : Point.Pt3 p = 0) by (rewrite EP3; ring).
  assert (P8 : Point.Pt8 p = 0)
    by (rewrite EP8, EP5, EP42, EP4, P3; ring).
  replace (Point.Pt8 p / Ps0) with 0 in Hb8
    by (rewrite P8; unfold Rdiv; ring).
  rewrite py_pow_zero in Hb8 by exact Pe. apply Ok_inj in Hb8. subst b8.
  assert (M : Point.M8_ad p = None).
  { rewrite EM8ad. apply np_sqrt_None. lra. }
  repeat split; try assumption.
  - rewrite E3. ring.
  - rewrite EM8, M. reflexivity.
  - rewrite EA8, P8.
    destruct (fin ((1 + Point.f p) * Point.dm_fp p) *! np_sqrt (Point.Tt8 p))%np
      as [x|]; simpl; [|reflexivity].
    destruct (Req_dec_T 0 0) as [_|N]; [reflexivity | now elim N].
Qed.

Lemma zero_ratio_point_defined :
  exists p, cycle_point Main.dm Main.beta Main.pi_fan 0 Main.Tt4
                        Main.M0 Main.Ts0 Main.Ps0 Main.M1 Main.M2 = Ok p.
Proof.
  pose proof main_fan_rise as HP.
  assert (Pe : 0 < (gamma - 1) / gamma) by (rewrite exponent_T; lra).
  apply pass_domain_evaluates.
  exists (Rpower Main.pi_fan ((gamma - 1) / gamma)), 0.
  split; [apply py_pow_pos; unfold Main.pi_fan; lra|].
  split; [now apply py_pow_zero|].
  split; [unfold Main.beta; lra|].
  split; [unfold Main.Tt4, PCI; lra|].
  split; [unfold Main.dm; lra|].
  split; [unfold Main.Tt4; lra|].
  split; [unfold Main.Ps0; lra|].
  cbv zeta. rewrite main_Tt2.
  set (P := Rpower Main.pi_fan ((gamma - 1) / gamma)) in *.
  replace (321.203925 * P * 0) with 0 by ring.
  set (d := 1 + cp * (Main.Tt4 - 0) / (PCI - Main.Tt4)).
  assert (Hd : 1 < d) by (unfold d, cp, Main.Tt4, PCI; lra).
  assert (E42 : Main.Tt4 - (0 - 321.203925 * P) / d
                = Main.Tt4 + 321.203925 * P / d) by (field; lra).
  assert (Q42 : 0 < 321.203925 * P / d) by (apply Rdiv_lt_0_compat; lra).
  assert (E5 : Main.Tt4 + 321.203925 * P / d
               - (1 + Main.beta) * (321.203925 * P - 321.203925) / d
               = Main.Tt4 + (6 * 321.203925 - 5 * (321.203925 * P)) / d)
    by (unfold Main.beta; field; lra).
  assert (Q5 : 0 < (6 * 321.203925 - 5 * (321.203925 * P)) / d)
    by (apply Rdiv_lt_0_compat; lra).
  rewrite E42, E5.
  assert (T4 : 0 < Main.Tt4) by (unfold Main.Tt4; lra).
  split; [lra|]. split; [lra|].
  split; apply Rlt_le, Rdiv_lt_0_compat; lra.
Qed.

Lemma zero_compressor_ratio_witness :
  exists p,
    cycle_point Main.dm Main.beta Main.pi_fan 0 Main.Tt4
                Main.M0 Main.Ts0 Main.Ps0 Main.M1 Main.M2 = Ok p /\
    Point.M8_ad p = None /\ Point.M8 p = fin 1 /\ Point.A8 p = None.
Proof.
  destruct zero_ratio_point_defined as [p Hp].
  exists p. split; [exact Hp|].
  split; [|split]; apply (zero_compressor_ratio _ _ _ _ _ _ _ _ _ p Hp).
Defined.

(** ** A negative static temperature *)

(** X23.  A negative static temperature is not rejected either: the
    flight velocity is the root of a negative number, and the pass returns
    [nan] for the net thrust, the specific thrust, the value stored as
    TSFC, the propulsive and kinetic powers and the three efficiencies. *)
Theorem negative_static_temperature
        (dm beta pi_fan pi_hpc Tt4 M0 Ts0 Ps0 M1 M2 : R) (p : Point.locals) :
  cycle_point dm beta pi_fan pi_hpc Tt4 M0 Ts0 Ps0 M1 M2 = Ok p ->
  Ts0 < 0 ->
  Point.V0 p = None /\ Point.T p = None /\ Point.ST p = None /\
  Point.TSFC p = None /\ Point.Wprop p = None /\ Point.Wcin p = None /\
  Point.nprop p = None /\ Point.nth p = None /\ Point.nglob p = None.
Proof.
  intros Hp Hts.
  destruct (point_thrust _ _ _ _ _ _ _ _ _ _ _ Hp)
    as (EV0 & _ & _ & ET & EST & ETSFC).
  destruct (point_power _ _ _ _ _ _ _ _ _ _ _ Hp)
    as (EWp & EWc & Enp & Enth & Eng).
  assert (V : Point.V0 p = None).
  { rewrite EV0, np_sqrt_None; [reflexivity|].
    unfold gamma, R_gas. lra. }
  assert (T : Point.T p = None).
  { rewrite ET, V.
    destruct (Point.T_fp p +! Point.T_fs p)%np; reflexivity. }
  assert (Wp : Point.Wprop p = None) by (rewrite EWp, T; reflexivity).
  assert (Wc : Point.Wcin p = None).
  { rewrite EWc, V. simpl.
    match goal with
    | |- (?a -! None)%np = None => destruct a; reflexivity
    end. }
  repeat split; try assumption.
  - rewrite EST, T. reflexivity.
  - rewrite ETSFC, EST, T. reflexivity.
  - rewrite Enp, Wp. reflexivity.
  - rewrite Enth, Wc. reflexivity.
  - rewrite Eng, Wp. reflexivity.
Qed.

Lemma negative_temperature_point_defined :
  exists p, cycle_point Main.dm Main.beta Main.pi_fan 1 Main.Tt4
                        Main.M0 (-1) Main.Ps0 Main.M1 Main.M2 = Ok p.
Proof.
  pose proof main_fan_rise as HP.
  assert (E2 : Tt2_of Main.M0 (-1) = (0 - 1.1445))
    by (unfold Tt2_of, Main.M0, gamma; lra).
  apply pass_domain_evaluates.
  exists (Rpower Main.pi_fan ((gamma - 1) / gamma)), 1.
  split; [apply py_pow_pos; unfold Main.pi_fan; lra|].
  split; [rewrite py_pow_pos, Rpower_one_base by lra; reflexivity|].
  split; [unfold Main.beta; lra|].
  split; [unfold Main.Tt4, PCI; lra|].
  split; [unfold Main.dm; lra|].
  split; [unfold Main.Tt4; lra|].
  split; [unfold Main.Ps0; lra|].
  cbv zeta. rewrite E2.
  set (P := Rpower Main.pi_fan ((gamma - 1) / gamma)) in *.
  rewrite !Rmult_1_r.
  set (d := 1 + cp * (Main.Tt4 - (0 - 1.1445) * P) / (PCI - Main.Tt4)).
  assert (Hd : 1 < d) by (unfold d, cp, Main.Tt4, PCI; lra).
  assert (E42 : Main.Tt4 - ((0 - 1.1445) * P - (0 - 1.1445) * P) / d = Main.Tt4)
    by (field; lra).
  assert (E5 : Main.Tt4 - (1 + Main.beta) * ((0 - 1.1445) * P - (0 - 1.1445)) / d
               = Main.Tt4 + 6 * 1.1445 * (P - 1) / d)
    by (unfold Main.beta; field; lra).
  assert (Q5 : 0 < 6 * 1.1445 * (P - 1) / d)
    by (apply Rdiv_lt_0_compat; lra).
  rewrite E42, E5.
  assert (T4 : 0 < Main.Tt4) by (unfold Main.Tt4; lra).
  split; [lra|]. split; [lra|].
  split; apply Rlt_le, Rdiv_lt_0_compat; lra.
Qed.

Lemma negative_static_temperature_witness :
  exists p,
    cycle_point Main.dm Main.beta Main.pi_fan 1 Main.Tt4
                Main.M0 (-1) Main.Ps0 Main.M1 Main.M2 = Ok p /\
    Point.T p = None /\ Point.nglob p = None.
Proof.
  destruct negative_temperature_point_defined as [p Hp].
  exists p. split; [exact Hp|].
  split; apply (negative_static_temperature _ _ _ _ _ _ _ _ _ _ p Hp); lra.
Defined.
